(** * zeroconfig: declarative configuration for zerolog

    A shallow embedding of the Go package [go.mau.fi/zeroconfig]
    (config.go, config_js.go and the level-window writer) together with the
    properties of its writer composition layer.

    Conventions of the embedding:
    - [zerolog.Level] is an [int8]; it is a [Z] here, with the constants of
      the zerolog package.
    - a Go [error] is represented by its message text.
    - an [io.Writer] interface value is a [Writer]: [nil_Writer] is the nil
      interface, every other constructor is one dynamic type.
    - code that runs outside the package (streams, files, the JS console,
      zerolog's encoders) acts on an abstract [World]; the operations the
      package calls are the fields of [Collaborators].
    - a method that performs output is a computation [M A]: it takes the
      world and gives the new world and a result, or nothing when Go
      panics.
    - a function that receives a pointer to a struct returns the struct as
      it leaves it.  The levels behind the [MinLevel] and [MaxLevel]
      pointers are assigned nowhere in the package and are values here.

    The registrations of the unix build (syslog, journald) and the older
    per-OS switch compileMainForOS, which Compile does not call, are left
    out: no property below depends on them, the registry being a parameter
    of every statement. *)

From Stdlib Require Import ZArith Lia Strings.Byte.
From stdpp Require Import base option list gmap strings fin_maps sorting pretty.

Open Scope Z_scope.

(** ** Severity levels (zerolog.Level, an int8) *)

Definition Level : Type := Z.

Definition DebugLevel : Level := 0.
Definition InfoLevel  : Level := 1.
Definition WarnLevel  : Level := 2.
Definition ErrorLevel : Level := 3.
Definition FatalLevel : Level := 4.
Definition PanicLevel : Level := 5.
Definition NoLevel    : Level := 6.
Definition Disabled   : Level := 7.
Definition TraceLevel : Level := -1.

Definition error : Type := string.

(** The pair [(n int, err error)] returned by Write and WriteLevel. *)
Definition IOResult : Type := Z * option error.

(** [len(p)] *)
Definition len {A} (p : list A) : Z := Z.of_nat (length p).

(** ** Configuration structs (config.go) *)

Record SyslogConfig := {
  Network : string;
  Host    : string;
  Flags   : Z;
  Tag     : string;
}.

Record FileConfig := {
  Filename   : string;
  MaxSize    : Z;
  MaxAge     : Z;
  MaxBackups : Z;
  LocalTime  : bool;
  Compress   : bool;
}.

Definition WriterType : Type := string.

Definition WriterTypeStdout    : WriterType := "stdout".
Definition WriterTypeStderr    : WriterType := "stderr".
Definition WriterTypeFile      : WriterType := "file".
Definition WriterTypeSyslog    : WriterType := "syslog".
Definition WriterTypeSyslogCEE : WriterType := "syslog-cee".
Definition WriterTypeJournald  : WriterType := "journald".
Definition WriterTypeJS        : WriterType := "js".

Definition LogFormat : Type := string.

Definition LogFormatJSON          : LogFormat := "json".
Definition LogFormatPretty        : LogFormat := "pretty".
Definition LogFormatPrettyColored : LogFormat := "pretty-colored".

(** [Type_] is the struct field [Type]; a nil level pointer is [None]. *)
Record WriterConfig := {
  Type_      : WriterType;
  Format     : LogFormat;
  MinLevel   : option Level;
  MaxLevel   : option Level;
  TimeFormat : string;
  Syslog     : SyslogConfig;
  File       : FileConfig;
}.

(** The hooks zerolog's [Context.Timestamp] and [Context.Caller] install. *)
Inductive Hook := timestampHook | callerHook.

(** ** The collaborators outside the package *)

Class Collaborators := {
  (** the state of streams, files and consoles *)
  World : Type;
  (** the values a metadata entry can hold (Go's [any]) and its nil *)
  any : Type;
  any_nil : any;
  (** [strconv.Quote], which the fmt verb %q applies to a string *)
  strconv_Quote : string → string;
  (** Rotate and Write of a lumberjack.Logger with the given settings *)
  lumberjack_Rotate : FileConfig → World → World * option error;
  lumberjack_Write : FileConfig → list byte → World → option (World * IOResult);
  (** what [zerolog.ConsoleWriter] renders for an encoded event, given
      NoColor and TimeFormat; a decoding failure is an error *)
  console_render : bool → string → list byte → list byte + error;
  (** [console.<method>(message, fields)] on the JS console of the host,
      after [JSON.parse] of the payload; a JS exception is a Go panic *)
  js_console_Call : string → list byte → World → option World;
  (** zerolog's encoding of one event: the logger's hooks and context
      fields, the level, the event's own fields and message; the timestamp
      hook reads the clock of the world *)
  zerolog_encode : list Hook → list (string * any) → Level →
                   list (string * any) → string → World → list byte;
  (** what zerolog does with the error of a failed write
      ([zerolog.ErrorHandler], by default a line on the process's stderr) *)
  zerolog_ErrorHandler : error → World → World;
}.

Section Package.
Context `{Collaborators}.

(** ** Computations that write *)

Definition M (A : Type) : Type := World → option (World * A).

Definition ret {A} (a : A) : M A := λ w, Some (w, a).
Definition bind {A B} (m : M A) (k : A → M B) : M B :=
  λ w, match m w with
       | Some (w', a) => k a w'
       | None => None
       end.
Definition panic {A} : M A := λ _, None.

Notation "'let*' x ':=' m 'in' k" := (bind m (λ x, k))
  (at level 10, x name, m at level 100, k at level 200).

(** ** Writers

    The dynamic types an [io.Writer] handled by the package can have.
    [ForeignWriter] is any writer of the embedding application (an
    os.File, a bytes.Buffer...): its Write method, and its WriteLevel
    method when its type implements [zerolog.LevelWriter]. *)

#[warnings="-register-all"] Inductive Writer :=
| nil_Writer
| io_Discard
| ForeignWriter (write : list byte → M IOResult)
                (writeLevel : option (Level → list byte → M IOResult))
| lumberjack_Logger (cfg : FileConfig)
| JSWriter
| ConsoleWriter (Out : Writer) (NoColor : bool) (TimeFormat : string)
| levelWriterAdapter (w : Writer)
| minMaxLevelWriter (lw : Writer) (MinLevel MaxLevel : Level)
| multiLevelWriter (writers : list Writer).

(** The type assertion [writer.(zerolog.LevelWriter)]: does the dynamic
    type have a WriteLevel method. *)
Definition is_LevelWriter (w : Writer) : bool :=
  match w with
  | nil_Writer => false
  | io_Discard => false
  | ForeignWriter _ wl => bool_decide (is_Some wl)
  | lumberjack_Logger _ => false
  | JSWriter => true
  | ConsoleWriter _ _ _ => false
  | levelWriterAdapter _ => true
  | minMaxLevelWriter _ _ _ => true
  | multiLevelWriter _ => true
  end.

(** config_js.go: JSWriter.WriteLevel.  The switch has no default case, so
    a level outside the named ones leaves [method] empty. *)
Definition JSWriter_method (level : Level) : string :=
  if level =? TraceLevel then "debug"
  else if (level =? DebugLevel) || (level =? NoLevel) then "log"
  else if level =? InfoLevel then "info"
  else if level =? WarnLevel then "warn"
  else if (level =? ErrorLevel) || (level =? FatalLevel) || (level =? PanicLevel)
       then "error"
  else "".

Definition JSWriter_WriteLevel (level : Level) (p : list byte) : M IOResult :=
  if level =? Disabled then ret (len p, None)
  else λ w, match js_console_Call (JSWriter_method level) p w with
            | Some w' => Some (w', (len p, None))
            | None => None
            end.

(** zerolog: multiLevelWriter.Write and .WriteLevel keep the first failure
    and still call every member. *)
Definition multi_step (p : list byte) (acc : IOResult) (r : IOResult) : IOResult :=
  match acc.2 with
  | Some _ => acc
  | None =>
      match r.2 with
      | Some e => (r.1, Some e)
      | None => if r.1 =? len p then (r.1, None) else (r.1, Some "short write"%string)
      end
  end.

(** Write and WriteLevel of every writer type.  A method of an embedded
    field is promoted: [levelWriterAdapter] has the Write of its
    [io.Writer], [minMaxLevelWriter] the Write of its [LevelWriter]. *)
Fixpoint Write (w : Writer) (p : list byte) {struct w} : M IOResult :=
  match w with
  | nil_Writer => panic
  | io_Discard => ret (len p, None)
  | ForeignWriter wr _ => wr p
  | lumberjack_Logger cfg => lumberjack_Write cfg p
  | JSWriter => JSWriter_WriteLevel DebugLevel p
  | ConsoleWriter out noColor timeFormat =>
      match console_render noColor timeFormat p with
      | inr e => ret (0, Some e)
      | inl line => let* r := Write out line in ret (len p, r.2)
      end
  | levelWriterAdapter w' => Write w' p
  | minMaxLevelWriter lw _ _ => Write lw p
  | multiLevelWriter ws =>
      (fix go (ws : list Writer) (acc : IOResult) : M IOResult :=
         match ws with
         | [] => ret acc
         | w' :: ws' => let* r := Write w' p in go ws' (multi_step p acc r)
         end) ws (0, None)
  end.

Fixpoint WriteLevel (w : Writer) (l : Level) (p : list byte) {struct w} : M IOResult :=
  match w with
  | nil_Writer => panic
  | io_Discard => panic
  | ForeignWriter _ (Some wl) => wl l p
  | ForeignWriter _ None => panic
  | lumberjack_Logger _ => panic
  | JSWriter => JSWriter_WriteLevel l p
  | ConsoleWriter _ _ _ => panic
  | levelWriterAdapter w' => Write w' p
  | minMaxLevelWriter lw minLevel maxLevel =>
      if ((minLevel =? NoLevel) || (l >=? minLevel))
         && ((maxLevel =? NoLevel) || (l <=? maxLevel))
      then WriteLevel lw l p
      else ret (len p, None)
  | multiLevelWriter ws =>
      (fix go (ws : list Writer) (acc : IOResult) : M IOResult :=
         match ws with
         | [] => ret acc
         | w' :: ws' => let* r := WriteLevel w' l p in go ws' (multi_step p acc r)
         end) ws (0, None)
  end.

(** MinMaxLevelWriter wraps a writer in a zerolog.LevelWriter, but limits
    the log levels that can pass through. *)
Definition MinMaxLevelWriter (writer : Writer) (minLevel maxLevel : Level) : Writer :=
  let lw := if is_LevelWriter writer then writer else levelWriterAdapter writer in
  minMaxLevelWriter lw minLevel maxLevel.

(** What the writer inside a window does with a record it is handed: its
    own WriteLevel, or its Write behind the adapter, which drops the
    level. *)
Definition inner_write (writer : Writer) (l : Level) (p : list byte) : M IOResult :=
  if is_LevelWriter writer then WriteLevel writer l p else Write writer p.

(** The level [l] lies in the window: each bound is NoLevel or respected. *)
Definition inside (min max l : Level) : Prop :=
  (min = NoLevel ∨ l >= min) ∧ (max = NoLevel ∨ l <= max).

(** A window forwards a record when, whatever writer is inside, the call is
    the inner writer's call with the same level and payload; it filters
    the record when, whatever writer is inside, the call leaves the world
    alone and reports the whole payload written. *)
Definition forwards (min max l : Level) (p : list byte) (world : World) : Prop :=
  ∀ writer, WriteLevel (MinMaxLevelWriter writer min max) l p world
            = inner_write writer l p world.

Definition filters (min max l : Level) (p : list byte) (world : World) : Prop :=
  ∀ writer, WriteLevel (MinMaxLevelWriter writer min max) l p world
            = Some (world, (len p, None)).

(** The call reports success and the length of the payload. *)
Definition reports_all_written {A} (r : option (A * IOResult)) (p : list byte) : Prop :=
  ∃ world', r = Some (world', (len p, None)).

(** ** zerolog's logger, as far as Config.Compile builds it

    [zerolog.New] replaces a nil writer by [io.Discard], adapts a writer
    without WriteLevel, and starts at TraceLevel.  zerolog has a
    [levelWriterAdapter] of its own with the same definition as the
    package's; the two are one constructor here. *)

Record Logger := {
  w       : Writer;
  level   : Level;
  hooks   : list Hook;
  context : list (string * any);
}.

Definition zerolog_New (w : Writer) : Logger :=
  let w := match w with nil_Writer => io_Discard | _ => w end in
  let lw := if is_LevelWriter w then w else levelWriterAdapter w in
  {| w := lw; level := TraceLevel; hooks := []; context := [] |}.

Definition Logger_Level (l : Logger) (lvl : Level) : Logger :=
  {| w := w l; level := lvl; hooks := hooks l; context := context l |}.

Definition zerolog_Nop : Logger := Logger_Level (zerolog_New nil_Writer) Disabled.

Definition Logger_Hook (l : Logger) (h : Hook) : Logger :=
  {| w := w l; level := level l; hooks := hooks l ++ [h]; context := context l |}.

Definition Context_Timestamp (c : Logger) : Logger := Logger_Hook c timestampHook.
Definition Context_Caller (c : Logger) : Logger := Logger_Hook c callerHook.
Definition Context_Interface (c : Logger) (key : string) (i : any) : Logger :=
  {| w := w c; level := level c; hooks := hooks c; context := context c ++ [(key, i)] |}.

Definition zerolog_MultiLevelWriter (writers : list Writer) : Writer :=
  multiLevelWriter
    ((λ w, if is_LevelWriter w then w else levelWriterAdapter w) <$> writers).

(** One log call [l.WithLevel(lvl).Fields(fields).Msg(msg)]: nothing for
    the level Disabled or a level under the logger's, else the encoded
    event goes to the logger's writer with its level.  (zerolog's process
    wide GlobalLevel is left at its default, and the exit and panic that
    follow a fatal or panic event are no output and are not part of this.) *)
Definition Logger_should (l : Logger) (lvl : Level) : bool := negb (lvl <? level l).

Definition Logger_log (l : Logger) (lvl : Level) (fields : list (string * any))
    (msg : string) : M unit :=
  if (lvl =? Disabled) || negb (Logger_should l lvl) then ret tt
  else λ world,
    let p := zerolog_encode (hooks l) (context l) lvl fields msg world in
    (let* r := WriteLevel (w l) lvl p in
     match r.2 with
     | Some e => λ world, Some (zerolog_ErrorHandler e world, tt)
     | None => ret tt
     end) world.

Record LogCall := {
  call_level  : Level;
  call_fields : list (string * any);
  call_msg    : string;
}.

Fixpoint Logger_run (l : Logger) (calls : list LogCall) : M unit :=
  match calls with
  | [] => ret tt
  | c :: calls' =>
      let* _u := Logger_log l (call_level c) (call_fields c) (call_msg c) in
      Logger_run l calls'
  end.

(** ** The registry of writer constructors (config.go)

    A [WriterCompiler] receives a pointer to the descriptor: it can read
    and assign the descriptor's fields, so it returns the descriptor as it
    leaves it.  It can read the two output slots [Stdout] and [Stderr] of
    the package and act on the world. *)

Record Streams := {
  Stdout : Writer;
  Stderr : Writer;
}.

Definition CompileResult : Type := WriterConfig * World * (Writer * option error).

Definition WriterCompiler : Type := Streams → WriterConfig → World → CompileResult.

Definition compileUnsupported : WriterCompiler := λ _ wc world,
  (wc, world,
   (nil_Writer,
    Some ("writer type " +:+ strconv_Quote (Type_ wc) +:+ " not supported on this OS"))).

Definition compileFile : WriterCompiler := λ _ wc world,
  let writer := lumberjack_Logger (File wc) in
  let '(world, err) := lumberjack_Rotate (File wc) world in
  match err with
  | Some e => (wc, world, (nil_Writer, Some e))
  | None => (wc, world, (writer, None))
  end.

Definition writerCompilers : gmap string WriterCompiler :=
  list_to_map [
    (WriterTypeStdout,    (λ st wc world, (wc, world, (Stdout st, None))) : WriterCompiler);
    (WriterTypeStderr,    (λ st wc world, (wc, world, (Stderr st, None))) : WriterCompiler);
    (WriterTypeFile,      compileFile);
    (WriterTypeJournald,  compileUnsupported);
    (WriterTypeSyslog,    compileUnsupported);
    (WriterTypeSyslogCEE, compileUnsupported)
  ].

Definition RegisterWriter (wt : WriterType) (compiler : WriterCompiler)
    (writerCompilers : gmap string WriterCompiler) : gmap string WriterCompiler :=
  <[wt := compiler]> writerCompilers.

(** config_js.go (built for GOOS=js only) *)
Definition set_Format (wc : WriterConfig) (f : LogFormat) : WriterConfig :=
  {| Type_ := Type_ wc; Format := f; MinLevel := MinLevel wc; MaxLevel := MaxLevel wc;
     TimeFormat := TimeFormat wc; Syslog := Syslog wc; File := File wc |}.

Definition compileJS : WriterCompiler := λ _ wc world,
  let wc := set_Format wc LogFormatJSON in
  (wc, world, (JSWriter, None)).

Definition init_js (writerCompilers : gmap string WriterCompiler)
    : gmap string WriterCompiler :=
  <[WriterTypeJS := compileJS]> writerCompilers.

(** ** Compiling one writer descriptor *)

Definition compileMain (writerCompilers : gmap string WriterCompiler) (st : Streams)
    (wc : WriterConfig) (world : World) : CompileResult :=
  match writerCompilers !! Type_ wc with
  | None => (wc, world, (nil_Writer, Some ("unknown writer type " +:+ strconv_Quote (Type_ wc))))
  | Some compiler => compiler st wc world
  end.

Definition levelPtr (ptr : option Level) : Level :=
  match ptr with
  | None => NoLevel
  | Some l => l
  end.

Definition defaultTimeFormat : string := "2006-01-02T15:04:05.999Z07:00".

(** The switch on [wc.Format]: the formatted writer, or the error of the
    default case. *)
Definition applyFormat (wc : WriterConfig) (output : Writer) : Writer + error :=
  if String.eqb (Format wc) "" || String.eqb (Format wc) LogFormatJSON then
    inl output
  else if String.eqb (Format wc) LogFormatPretty
          || String.eqb (Format wc) LogFormatPrettyColored then
    let noColor := String.eqb (Format wc) LogFormatPretty in
    let timeFormat :=
      if negb (String.eqb (TimeFormat wc) "") then TimeFormat wc
      else defaultTimeFormat in
    inl (ConsoleWriter output noColor timeFormat)
  else
    inr ("unknown format " +:+ strconv_Quote (Format wc)).

(** The last step of WriterConfig.Compile. *)
Definition applyLevels (wc : WriterConfig) (output : Writer) : Writer :=
  if bool_decide (MinLevel wc ≠ None) || bool_decide (MaxLevel wc ≠ None) then
    MinMaxLevelWriter output (levelPtr (MinLevel wc)) (levelPtr (MaxLevel wc))
  else output.

(** Compile creates an io.Writer instance out of the configuration in this
    struct.  The receiver is a pointer, the same one compileMain hands to
    the constructor: the fields read after compileMain are those the
    constructor left. *)
Definition WriterConfig_Compile (writerCompilers : gmap string WriterCompiler)
    (st : Streams) (wc : WriterConfig) (world : World) : CompileResult :=
  let '(wc, world, (output, err)) := compileMain writerCompilers st wc world in
  match err with
  | Some e => (wc, world, (nil_Writer, Some e))
  | None =>
      match applyFormat wc output with
      | inr e => (wc, world, (nil_Writer, Some e))
      | inl output => (wc, world, (applyLevels wc output, None))
      end
  end.

(** ** Compiling the whole configuration *)

(** [Config_MinLevel] is the field [MinLevel] of Config; a nil
    [Timestamp] pointer is [None]. *)
Record Config := {
  Writers         : list WriterConfig;
  Config_MinLevel : option Level;
  Timestamp       : option bool;
  Caller          : bool;
  Metadata        : gmap string any;
}.

(** The loop [for i, wc := range c.Writers].  The state is everything in
    scope: the configuration [c] the receiver points to, the slice
    [writers] and the world.  Each round copies [c.Writers[i]] into the
    loop variable [wc] and calls [wc.Compile()] on the address of that
    variable; [n] is the number of rounds left. *)
Fixpoint compileWriters (writerCompilers : gmap string WriterCompiler) (st : Streams)
    (n i : nat) (c : Config) (writers : list Writer) (world : World)
    : Config * World * (list Writer + error) :=
  match n with
  | O => (c, world, inl writers)
  | S n' =>
      match Writers c !! i with
      | None => (c, world, inl writers)
      | Some wc =>
          let '(wc, world, (writer, err)) :=
            WriterConfig_Compile writerCompilers st wc world in
          match err with
          | Some e =>
              (c, world,
               inr ("failed to parse config for writer #" +:+ pretty (i + 1)%nat
                    +:+ ": " +:+ e))
          | None =>
              compileWriters writerCompilers st n' (S i) c (<[i := writer]> writers) world
          end
      end
  end.

(** [sort.Strings]: increasing order of Go's [<] on strings, which compares
    byte by byte. *)
Definition sort_Strings (keys : list string) : list string :=
  merge_sort String.le keys.

(** The loop that collects the keys of the metadata map into a slice made
    with the map's size; [order] is the order in which [range] yields the
    keys, which the Go runtime chooses. *)
Definition collectKeys (size : nat) (order : list string) : list string :=
  (foldl (λ '(keys, i) key, (<[i := key]> keys, S i))
         (replicate size EmptyString, O) order).1.

(** Compile creates a zerolog.Logger instance out of the configuration in
    this struct.  The result is the configuration as the call leaves it,
    the world, and the pair of the logger pointer and the error. *)
Definition Config_Compile (writerCompilers : gmap string WriterCompiler) (st : Streams)
    (order : list string) (c : Config) (world : World)
    : Config * World * (option Logger * option error) :=
  if (length (Writers c) =? 0)%nat
     || match Config_MinLevel c with
        | Some l => l =? Disabled
        | None => false
        end
  then
    let log := zerolog_Nop in
    (c, world, (Some log, None))
  else
    let writers := replicate (length (Writers c)) nil_Writer in
    match compileWriters writerCompilers st (length (Writers c)) 0 c writers world with
    | (c, world, inr e) => (c, world, (None, Some e))
    | (c, world, inl writers) =>
        let realWriter :=
          if (length writers =? 1)%nat then nth 0 writers nil_Writer
          else if (1 <? length writers)%nat then zerolog_MultiLevelWriter writers
          else nil_Writer in
        let with_ := zerolog_New realWriter in
        let with_ :=
          match Timestamp c with
          | None | Some true => Context_Timestamp with_
          | Some false => with_
          end in
        let with_ := if Caller c then Context_Caller with_ else with_ in
        let with_ :=
          if (0 <? size (Metadata c))%nat then
            let keys := collectKeys (size (Metadata c)) order in
            let keys := sort_Strings keys in
            foldl (λ with_ key,
                     Context_Interface with_ key (default any_nil (Metadata c !! key)))
                  with_ keys
          else with_ in
        let log := with_ in
        let log :=
          match Config_MinLevel c with
          | Some l => Logger_Level log l
          | None => log
          end in
        (c, world, (Some log, None))
    end.

(** ** Predicates used in the statements *)

(** The format tags the switch of WriterConfig.Compile has a case for. *)
Definition known_format (f : LogFormat) : Prop :=
  f = "" ∨ f = LogFormatJSON ∨ f = LogFormatPretty ∨ f = LogFormatPrettyColored.

(** The test at the head of Config.Compile. *)
Definition inert c : Prop := Writers c = [] ∨ Config_MinLevel c = Some Disabled.

(** The fields Config.Compile attaches for a given order of the keys. *)
Definition attached c (order : list string) : list (string * any) :=
  if (0 <? size (Metadata c))%nat then
    (λ key, (key, default any_nil (Metadata c !! key)))
      <$> sort_Strings (collectKeys (size (Metadata c)) order)
  else [].

End Package.

(** ** The unix build: syslog and journald

    What the package calls of [log/syslog], of zerolog's syslog writers
    and of [zerolog/journald].  A [syslog_Writer] is the connection that
    [syslog.Dial] returns, nil included. *)

Class UnixCollaborators `{Collaborators} := {
  syslog_Writer : Type;
  syslog_Dial : string → string → Z → string → World → World * (syslog_Writer * option error);
  zerolog_SyslogLevelWriter : syslog_Writer → Writer;
  zerolog_SyslogCEEWriter : syslog_Writer → Writer;
  journald_NewJournalDWriter : Writer;
}.

Section Unix.
Context `{UnixCollaborators}.

Definition compileSyslog : WriterCompiler := λ _ wc world,
  let '(world, (sl, err)) :=
    syslog_Dial (Network (Syslog wc)) (Host (Syslog wc)) (Flags (Syslog wc))
                (Tag (Syslog wc)) world in
  match err with
  | Some e => (wc, world, (nil_Writer, Some e))
  | None =>
      if String.eqb (Type_ wc) WriterTypeSyslogCEE
      then (wc, world, (zerolog_SyslogCEEWriter sl, None))
      else (wc, world, (zerolog_SyslogLevelWriter sl, None))
  end.

Definition compileJournald : WriterCompiler := λ _ wc world,
  (wc, world, (journald_NewJournalDWriter, None)).

(** The init function of the unix build: three assignments to the map. *)
Definition init_unix (writerCompilers : gmap string WriterCompiler)
    : gmap string WriterCompiler :=
  <[WriterTypeJournald := compileJournald]>
    (<[WriterTypeSyslogCEE := compileSyslog]>
       (<[WriterTypeSyslog := compileSyslog]> writerCompilers)).

(** The older switch on the writer type, one version per OS: the linux one
    and the one built elsewhere.  The receiver is a pointer, so both
    return the descriptor too. *)
Definition compileMainForOS (wc : WriterConfig) (world : World) : CompileResult :=
  if String.eqb (Type_ wc) WriterTypeSyslog || String.eqb (Type_ wc) WriterTypeSyslogCEE then
    let '(world, (sl, err)) :=
      syslog_Dial (Network (Syslog wc)) (Host (Syslog wc)) (Flags (Syslog wc))
                  (Tag (Syslog wc)) world in
    match err with
    | Some e => (wc, world, (nil_Writer, Some e))
    | None =>
        if String.eqb (Type_ wc) WriterTypeSyslogCEE
        then (wc, world, (zerolog_SyslogCEEWriter sl, None))
        else (wc, world, (zerolog_SyslogLevelWriter sl, None))
    end
  else if String.eqb (Type_ wc) WriterTypeJournald then
    (wc, world, (journald_NewJournalDWriter, None))
  else
    (wc, world, (nil_Writer, Some ("unknown writer type " +:+ strconv_Quote (Type_ wc)))).

Definition compileMainForOS_generic (wc : WriterConfig) (world : World) : CompileResult :=
  (wc, world, (nil_Writer, Some ("unknown writer type " +:+ strconv_Quote (Type_ wc)))).

(** The call of [syslog.Dial] that compileSyslog makes for a descriptor. *)
Definition dial (wc : WriterConfig) (world : World)
    : World * (syslog_Writer * option error) :=
  syslog_Dial (Network (Syslog wc)) (Host (Syslog wc)) (Flags (Syslog wc))
              (Tag (Syslog wc)) world.

End Unix.

(** ** The loop of the multi-writer

    The loop inside WriteLevel of a multi-writer, as a function of its
    own: the members left to call and the result so far. *)

Section MultiWriter.
Context `{Collaborators}.

Fixpoint multi_WriteLevel (l : Level) (p : list byte) (ws : list Writer)
    (acc : IOResult) : M IOResult :=
  match ws with
  | [] => ret acc
  | w' :: ws' => bind (WriteLevel w' l p) (λ r, multi_WriteLevel l p ws' (multi_step p acc r))
  end.

(** The world a call leaves, or nothing when it panics. *)
Definition world_after {A} (r : option (World * A)) : option World := fst <$> r.

End MultiWriter.

(** ** Fixtures: collaborators that record what reaches them

    The world is the list of deliveries, oldest first: the name of the
    sink and the bytes it received.  A [Buffer] plays the role of the
    [bytes.Buffer] of the package's tests. *)

Definition quote_char : string := String (Ascii.ascii_of_nat 34) EmptyString.

Definition rec_World : Type := list (string * list byte).

Definition rec_collaborators : Collaborators := {|
  World := rec_World;
  any := Z;
  any_nil := 0;
  strconv_Quote := λ s, quote_char +:+ s +:+ quote_char;
  lumberjack_Rotate := λ cfg (world : rec_World),
    if String.eqb (Filename cfg) "" then (world, Some "open : no such file or directory")
    else (world, None);
  lumberjack_Write := λ cfg p (world : rec_World), Some (world ++ [(Filename cfg, p)], (len p, None));
  console_render := λ _ _ p, inl p;
  js_console_Call := λ method p (world : rec_World), Some (world ++ [("console." +:+ method, p)]);
  zerolog_encode := λ _ _ _ _ msg _, String.list_byte_of_string msg;
  zerolog_ErrorHandler := λ e (world : rec_World), world ++ [("os.Stderr", String.list_byte_of_string e)];
|}.

Definition Buffer (name : string) : @Writer rec_collaborators :=
  @ForeignWriter rec_collaborators
    (λ p (world : rec_World), Some (world ++ [(name, p)], (len p, None))) None.

(** A level writer whose connection is gone: every write fails. *)
Definition Broken : @Writer rec_collaborators :=
  @ForeignWriter rec_collaborators
    (λ p (world : rec_World), Some (world, (0, Some "broken pipe")))
    (Some (λ _ p (world : rec_World), Some (world, (0, Some "broken pipe")))).

Definition rec_streams : @Streams rec_collaborators :=
  {| Stdout := Buffer "stdout"; Stderr := Buffer "stderr" |}.

Definition no_syslog : SyslogConfig :=
  {| Network := ""; Host := ""; Flags := 0; Tag := "" |}.
Definition no_file : FileConfig :=
  {| Filename := ""; MaxSize := 0; MaxAge := 0; MaxBackups := 0;
     LocalTime := false; Compress := false |}.

(** A descriptor as the JSON decoder leaves it when only these fields are given. *)
Definition descriptor (type format : string) (minLevel maxLevel : option Level)
    (timeFormat : string) : WriterConfig :=
  {| Type_ := type; Format := format; MinLevel := minLevel; MaxLevel := maxLevel;
     TimeFormat := timeFormat; Syslog := no_syslog; File := no_file |}.

Definition bytes_of (s : string) : list byte := String.list_byte_of_string s.

(** One record per level, lowest first, as the package's test writes them. *)
Definition allLevels : list (Level * list byte) :=
  [(TraceLevel, bytes_of "trace"); (DebugLevel, bytes_of "debug");
   (InfoLevel, bytes_of "info"); (WarnLevel, bytes_of "warn");
   (ErrorLevel, bytes_of "error"); (FatalLevel, bytes_of "fatal");
   (PanicLevel, bytes_of "panic")].

Fixpoint writeAll `{Collaborators} (w : Writer) (records : list (Level * list byte))
    (world : World) : option World :=
  match records with
  | [] => Some world
  | (l, p) :: records' =>
      match WriteLevel w l p world with
      | Some (world', _) => writeAll w records' world'
      | None => None
      end
  end.

(** What a buffer behind a window holds after one record of every level. *)
Definition passed (min max : Level) : option (list (list byte)) :=
  (λ world : rec_World, world.*2)
    <$> @writeAll rec_collaborators (MinMaxLevelWriter (Buffer "buf") min max) allLevels [].

Definition meow : list byte := bytes_of "meow".

Definition config (writers : list WriterConfig) (minLevel : option Level)
    (metadata : gmap string Z) : @Config rec_collaborators :=
  @Build_Config rec_collaborators writers minLevel (Some false) false metadata.

Definition rec_registry : gmap string (@WriterCompiler rec_collaborators) :=
  @writerCompilers rec_collaborators.

Definition js_registry : gmap string (@WriterCompiler rec_collaborators) :=
  init_js rec_registry.

Definition bogus : WriterConfig := descriptor "bogus" "" None None "".
Definition stdout_json : WriterConfig := descriptor "stdout" "json" None None "".
Definition stdout_xml : WriterConfig := descriptor "stdout" "xml" None None "".
Definition stdout_from_info : WriterConfig :=
  descriptor "stdout" "json" (Some InfoLevel) None "".
Definition stdout_pretty_year : WriterConfig :=
  descriptor "stdout" "pretty" None None "2006".
Definition js_pretty : WriterConfig := descriptor "js" "pretty" None None "".

Definition cats : gmap string Z := <["meow" := 5]> (<["foo" := 7]> ∅).

(** The logger of the configuration with one JSON writer on stdout, no
    timestamp and the metadata [cats]. *)
Definition cats_logger : @Logger rec_collaborators :=
  {| w := levelWriterAdapter (Buffer "stdout"); level := TraceLevel; hooks := [];
     context := [("foo", 7); ("meow", 5)] |}.

Definition quoted (s : string) : string := quote_char +:+ s +:+ quote_char.

(** The configuration of the package's test with two windows: warnings and
    below on stdout, errors and above on stderr. *)
Definition split_stdio : @Config rec_collaborators :=
  config [descriptor "stdout" "pretty" None (Some WarnLevel) "";
          descriptor "stderr" "pretty" (Some ErrorLevel) None ""]
         (Some TraceLevel) ∅.

Definition say (l : Level) (msg : string) : @LogCall rec_collaborators :=
  {| call_level := l; call_fields := []; call_msg := msg |}.

(** What the sinks hold after the calls on the logger of a configuration. *)
Definition logged (c : @Config rec_collaborators)
    (calls : list (@LogCall rec_collaborators)) : option rec_World :=
  match (@Config_Compile rec_collaborators rec_registry rec_streams [] c []).2 with
  | (Some log, None) => fst <$> Logger_run log calls []
  | _ => None
  end.

(** A syslog daemon that only listens at a named host: the connection
    is the tag, and the writers deliver to the sink of that name. *)
Definition rec_Dial (network host : string) (flags : Z) (tag : string)
    (world : rec_World) : rec_World * (string * option error) :=
  if String.eqb host "" then (world, (EmptyString, Some "dial: connection refused"))
  else (world ++ [("dial " +:+ host, [])], (tag, None)).

Definition rec_syslog (prefix sl : string) : @Writer rec_collaborators :=
  @ForeignWriter rec_collaborators
    (λ p (world : rec_World), Some (world ++ [(prefix +:+ sl, p)], (len p, None)))
    (Some (λ _ p (world : rec_World),
             Some (world ++ [(prefix +:+ sl, p)], (len p, None)))).

Definition rec_unix : @UnixCollaborators rec_collaborators :=
  @Build_UnixCollaborators rec_collaborators string rec_Dial
    (rec_syslog "syslog ") (rec_syslog "cee ") (Buffer "journald").

Definition unix_registry : gmap string (@WriterCompiler rec_collaborators) :=
  @init_unix rec_collaborators rec_unix rec_registry.

Definition syslog_to (type host tag : string) : WriterConfig :=
  {| Type_ := type; Format := ""; MinLevel := None; MaxLevel := None;
     TimeFormat := "";
     Syslog := {| Network := "udp"; Host := host; Flags := 8; Tag := tag |};
     File := no_file |}.

Definition file_named (name format : string) : WriterConfig :=
  {| Type_ := "file"; Format := format; MinLevel := None; MaxLevel := None;
     TimeFormat := ""; Syslog := no_syslog;
     File := {| Filename := name; MaxSize := 100; MaxAge := 0; MaxBackups := 0;
                LocalTime := false; Compress := false |} |}.

Definition two_stdout : @Config rec_collaborators :=
  config [stdout_json; stdout_from_info] None ∅.

Definition two_stdout_writers : list (@Writer rec_collaborators) :=
  [Buffer "stdout";
   minMaxLevelWriter (levelWriterAdapter (Buffer "stdout")) InfoLevel NoLevel].

(** The logger of the configuration with one JSON writer on stdout and
    the minimum level info. *)
Definition info_logger : @Logger rec_collaborators :=
  {| w := levelWriterAdapter (Buffer "stdout"); level := InfoLevel; hooks := [];
     context := [] |}.

(** * Properties *)

Section Properties.
Context `{Collaborators}.
Implicit Types (reg : gmap string WriterCompiler) (st : Streams).
Implicit Types (wc : WriterConfig) (world : World) (c : Config).

(** ** The level window *)

Lemma window_test (min max l : Level) :
  ((min =? NoLevel) || (l >=? min)) && ((max =? NoLevel) || (l <=? max)) = true
  ↔ inside min max l.
Proof.
  unfold inside.
  rewrite andb_true_iff, !orb_true_iff, !Z.eqb_eq, Z.geb_le, Z.leb_le.
  lia.
Qed.

Lemma WriteLevel_inside (writer : Writer) (min max l : Level) (p : list byte) :
  inside min max l →
  WriteLevel (MinMaxLevelWriter writer min max) l p = inner_write writer l p.
Proof.
  intros Hin. apply window_test in Hin.
  unfold MinMaxLevelWriter, inner_write. cbn [WriteLevel]. rewrite Hin.
  destruct (is_LevelWriter writer); reflexivity.
Qed.

Lemma WriteLevel_outside (writer : Writer) (min max l : Level) (p : list byte) :
  ¬ inside min max l →
  WriteLevel (MinMaxLevelWriter writer min max) l p = ret (len p, None).
Proof.
  intros Hout. unfold MinMaxLevelWriter. cbn [WriteLevel].
  destruct (_ && _) eqn:Htest; [|reflexivity].
  apply window_test in Htest. contradiction.
Qed.

Lemma inside_dec (min max l : Level) : inside min max l ∨ ¬ inside min max l.
Proof.
  destruct (((min =? NoLevel) || (l >=? min)) && ((max =? NoLevel) || (l <=? max)))
    eqn:Htest.
  - left. by apply window_test.
  - right. intros Hin. apply window_test in Hin. congruence.
Qed.

(** C1, as amended: a window forwards the record to the writer inside,
    level and payload unchanged, exactly when the level is in the window,
    and the result is then the inner writer's; it filters the record,
    reporting success and the payload's length with nothing written,
    exactly when the level is outside. *)
Theorem WriteLevel_window (min max l : Level) (p : list byte) (world : World) :
  (forwards min max l p world ↔ inside min max l)
  ∧ (filters min max l p world ↔ ¬ inside min max l).
Proof.
  split; split.
  - intros Hfw. destruct (inside_dec min max l) as [|Hout]; [done|].
    specialize (Hfw nil_Writer).
    rewrite (WriteLevel_outside _ _ _ _ _ Hout) in Hfw. discriminate Hfw.
  - intros Hin writer. by rewrite WriteLevel_inside.
  - intros Hfl Hin. specialize (Hfl nil_Writer).
    rewrite (WriteLevel_inside _ _ _ _ _ Hin) in Hfl. discriminate Hfl.
  - intros Hout writer. by rewrite WriteLevel_outside.
Qed.

(** ** One writer descriptor *)

Lemma WriterConfig_Compile_ok reg st wc world wc' world' out fout :
  compileMain reg st wc world = (wc', world', (out, None)) →
  applyFormat wc' out = inl fout →
  WriterConfig_Compile reg st wc world = (wc', world', (applyLevels wc' fout, None)).
Proof. intros Hmain Hfmt. unfold WriterConfig_Compile. by rewrite Hmain, Hfmt. Qed.

Lemma WriterConfig_Compile_bad_format reg st wc world wc' world' out e :
  compileMain reg st wc world = (wc', world', (out, None)) →
  applyFormat wc' out = inr e →
  WriterConfig_Compile reg st wc world = (wc', world', (nil_Writer, Some e)).
Proof. intros Hmain Hfmt. unfold WriterConfig_Compile. by rewrite Hmain, Hfmt. Qed.

Lemma WriterConfig_Compile_failed reg st wc world wc' world' out e :
  compileMain reg st wc world = (wc', world', (out, Some e)) →
  WriterConfig_Compile reg st wc world = (wc', world', (nil_Writer, Some e)).
Proof. intros Hmain. unfold WriterConfig_Compile. by rewrite Hmain. Qed.

Lemma compileMain_unknown reg st wc world :
  reg !! Type_ wc = None →
  compileMain reg st wc world
  = (wc, world, (nil_Writer, Some ("unknown writer type " +:+ strconv_Quote (Type_ wc)))).
Proof. intros Hreg. unfold compileMain, WriterCompiler in *. by rewrite Hreg. Qed.

Lemma compileMain_known reg st wc world compiler :
  reg !! Type_ wc = Some compiler →
  compileMain reg st wc world = compiler st wc world.
Proof. intros Hreg. unfold compileMain, WriterCompiler in *. by rewrite Hreg. Qed.

Lemma applyFormat_unknown wc out :
  ¬ known_format (Format wc) →
  applyFormat wc out = inr ("unknown format " +:+ strconv_Quote (Format wc)).
Proof.
  intros Hunk. unfold applyFormat, known_format in *.
  destruct (String.eqb_spec (Format wc) "") as [Heq|]; [by destruct Hunk; auto|].
  destruct (String.eqb_spec (Format wc) LogFormatJSON) as [Heq|];
    [by destruct Hunk; auto|].
  destruct (String.eqb_spec (Format wc) LogFormatPretty) as [Heq|];
    [by destruct Hunk; auto|].
  destruct (String.eqb_spec (Format wc) LogFormatPrettyColored) as [Heq|];
    [by destruct Hunk; auto|].
  reflexivity.
Qed.

Lemma applyFormat_json wc out :
  Format wc = "" ∨ Format wc = LogFormatJSON → applyFormat wc out = inl out.
Proof. intros [Hf|Hf]; unfold applyFormat; by rewrite Hf. Qed.

Lemma applyFormat_pretty wc out :
  Format wc = LogFormatPretty ∨ Format wc = LogFormatPrettyColored →
  applyFormat wc out
  = inl (ConsoleWriter out (bool_decide (Format wc = LogFormatPretty))
           (if decide (TimeFormat wc = "") then defaultTimeFormat else TimeFormat wc)).
Proof.
  intros Hf. unfold applyFormat.
  assert (String.eqb (Format wc) "" || String.eqb (Format wc) LogFormatJSON = false) as ->.
  { by destruct Hf as [-> | ->]. }
  assert (String.eqb (Format wc) LogFormatPretty
          || String.eqb (Format wc) LogFormatPrettyColored = true) as ->.
  { by destruct Hf as [-> | ->]. }
  do 2 f_equal.
  - destruct (String.eqb_spec (Format wc) LogFormatPretty).
    + by rewrite bool_decide_eq_true_2.
    + by rewrite bool_decide_eq_false_2.
  - destruct (String.eqb_spec (TimeFormat wc) ""); by case_decide.
Qed.

Lemma applyLevels_window wc out :
  MinLevel wc ≠ None ∨ MaxLevel wc ≠ None →
  applyLevels wc out
  = MinMaxLevelWriter out (default NoLevel (MinLevel wc)) (default NoLevel (MaxLevel wc)).
Proof.
  intros Hb. unfold applyLevels.
  destruct (MinLevel wc), (MaxLevel wc); try reflexivity.
  destruct Hb; congruence.
Qed.

Lemma applyLevels_none wc out :
  MinLevel wc = None → MaxLevel wc = None → applyLevels wc out = out.
Proof. intros Hmn Hmx. unfold applyLevels. by rewrite Hmn, Hmx. Qed.

(** C4: a window whose two bounds are levels with min above max is built
    like any other, by MinMaxLevelWriter and by WriterConfig.Compile, with
    no error, and it filters every record; a window with NoLevel on both
    sides forwards every record. *)
Theorem inverted_window_filters_all (min max : Level) :
  min ≠ NoLevel → max ≠ NoLevel → min > max →
  (∀ writer, ∃ lw, MinMaxLevelWriter writer min max = minMaxLevelWriter lw min max)
  ∧ (∀ reg st wc world wc' world' out fout,
       compileMain reg st wc world = (wc', world', (out, None)) →
       applyFormat wc' out = inl fout →
       MinLevel wc' = Some min → MaxLevel wc' = Some max →
       WriterConfig_Compile reg st wc world
       = (wc', world', (MinMaxLevelWriter fout min max, None)))
  ∧ (∀ l p world, filters min max l p world)
  ∧ (∀ l p world, forwards NoLevel NoLevel l p world).
Proof.
  intros Hmin Hmax Hgt. repeat split.
  - intros writer. eexists. reflexivity.
  - intros reg st wc world wc' world' out fout Hmain Hfmt Hmn Hmx.
    rewrite (WriterConfig_Compile_ok _ _ _ _ _ _ _ _ Hmain Hfmt).
    rewrite applyLevels_window by (rewrite Hmn; auto).
    by rewrite Hmn, Hmx.
  - intros l p world writer. rewrite WriteLevel_outside; [done|].
    unfold inside. lia.
  - intros l p world writer. rewrite WriteLevel_inside; [done|].
    unfold inside. auto.
Qed.

(** C5: when the constructor and the format step succeed, WriterConfig.Compile
    returns the formatted writer wrapped by MinMaxLevelWriter if the
    descriptor has a minimum or a maximum level, with NoLevel for the one
    that is absent, and returns the formatted writer itself if it has
    neither.  (The bounds are read through the descriptor pointer after
    the constructor ran.) *)
Theorem Compile_wraps_levels reg st wc world wc' world' out fout :
  compileMain reg st wc world = (wc', world', (out, None)) →
  applyFormat wc' out = inl fout →
  (MinLevel wc' ≠ None ∨ MaxLevel wc' ≠ None →
     WriterConfig_Compile reg st wc world
     = (wc', world',
        (MinMaxLevelWriter fout (default NoLevel (MinLevel wc'))
                                (default NoLevel (MaxLevel wc')), None)))
  ∧ (MinLevel wc' = None ∧ MaxLevel wc' = None →
     WriterConfig_Compile reg st wc world = (wc', world', (fout, None)))
  ∧ (∀ ptr, levelPtr ptr = default NoLevel ptr).
Proof.
  intros Hmain Hfmt.
  rewrite (WriterConfig_Compile_ok _ _ _ _ _ _ _ _ Hmain Hfmt).
  split; [|split].
  - intros Hb. by rewrite applyLevels_window.
  - intros [Hmn Hmx]. by rewrite applyLevels_none.
  - by intros [].
Qed.

(** C7: for the format tags pretty and pretty-colored, the ConsoleWriter
    that WriterConfig.Compile puts around the sink has the descriptor's
    time_format as its TimeFormat when that is not empty, and
    2006-01-02T15:04:05.999Z07:00 otherwise. *)
Theorem pretty_time_format reg st wc world wc' world' out :
  compileMain reg st wc world = (wc', world', (out, None)) →
  Format wc' = LogFormatPretty ∨ Format wc' = LogFormatPrettyColored →
  ∃ noColor timeFormat,
    WriterConfig_Compile reg st wc world
    = (wc', world', (applyLevels wc' (ConsoleWriter out noColor timeFormat), None))
    ∧ (TimeFormat wc' ≠ "" → timeFormat = TimeFormat wc')
    ∧ (TimeFormat wc' = "" → timeFormat = "2006-01-02T15:04:05.999Z07:00")
    ∧ (noColor = true ↔ Format wc' = LogFormatPretty).
Proof.
  intros Hmain Hf.
  eexists _, _. split; [|split; [|split]].
  - apply (WriterConfig_Compile_ok _ _ _ _ _ _ _ _ Hmain).
    by apply applyFormat_pretty.
  - intros Hne. by case_decide.
  - intros He. by case_decide.
  - apply bool_decide_eq_true.
Qed.

(** C9: where the registry maps js to compileJS, compiling a descriptor of
    type js never fails and never wraps a ConsoleWriter, whatever its
    format: the constructor assigns the JSON tag to the descriptor's
    format before the format switch reads it, so the result is the
    JSWriter, behind a level window when the descriptor has bounds, and
    it is the same for any two values of the format. *)
Theorem js_format_ignored reg st wc world :
  reg !! WriterTypeJS = Some compileJS →
  Type_ wc = WriterTypeJS →
  WriterConfig_Compile reg st wc world
  = (set_Format wc LogFormatJSON, world, (applyLevels wc JSWriter, None))
  ∧ (applyLevels wc JSWriter = JSWriter
     ∨ applyLevels wc JSWriter
       = minMaxLevelWriter JSWriter (levelPtr (MinLevel wc)) (levelPtr (MaxLevel wc)))
  ∧ (∀ f, (WriterConfig_Compile reg st (set_Format wc f) world).2
          = (WriterConfig_Compile reg st wc world).2).
Proof.
  intros Hreg Hty.
  assert (∀ wc0, Type_ wc0 = WriterTypeJS →
            WriterConfig_Compile reg st wc0 world
            = (set_Format wc0 LogFormatJSON, world, (applyLevels wc0 JSWriter, None)))
    as Hjs.
  { intros wc0 Hty0. unfold WriterConfig_Compile.
    rewrite (compileMain_known _ _ _ _ compileJS) by (by rewrite Hty0).
    reflexivity. }
  split; [|split].
  - by apply Hjs.
  - unfold applyLevels. destruct (_ || _); [right|left]; reflexivity.
  - intros f. rewrite !Hjs by done. reflexivity.
Qed.

(** ** The registry *)

(** C8: after RegisterWriter for a type the registry resolves the type to
    that constructor; a second registration for the same type replaces the
    first and leaves the registry as if the first had not been made;
    compileMain then runs the last constructor registered; no registration
    removes an entry. *)
Theorem RegisterWriter_last_wins (reg : gmap string WriterCompiler)
    (wt : WriterType) (c1 c2 : WriterCompiler) :
  RegisterWriter wt c1 reg !! wt = Some c1
  ∧ RegisterWriter wt c2 (RegisterWriter wt c1 reg) !! wt = Some c2
  ∧ RegisterWriter wt c2 (RegisterWriter wt c1 reg) = RegisterWriter wt c2 reg
  ∧ (∀ st wc world, Type_ wc = wt →
       compileMain (RegisterWriter wt c2 (RegisterWriter wt c1 reg)) st wc world
       = c2 st wc world)
  ∧ (∀ wt', is_Some (reg !! wt') → is_Some (RegisterWriter wt c1 reg !! wt')).
Proof.
  unfold RegisterWriter. repeat split.
  - apply lookup_insert_eq.
  - apply lookup_insert_eq.
  - apply insert_insert_eq.
  - intros st wc world <-. apply compileMain_known, lookup_insert_eq.
  - intros wt' Hsome. rewrite lookup_insert. by case_decide.
Qed.

(** ** The loop over the writers *)

Lemma compileWriters_config reg st n i c writers world :
  (compileWriters reg st n i c writers world).1.1 = c.
Proof.
  revert i writers world. induction n as [|n IH]; intros i writers world; simpl.
  - reflexivity.
  - destruct (Writers c !! i) as [wc|]; [|reflexivity].
    destruct (WriterConfig_Compile reg st wc world) as [[wc' world'] [writer [e|]]].
    + reflexivity.
    + apply IH.
Qed.

(** Case analysis on the outcome of the loop as Config.Compile runs it,
    with the configuration it returns replaced by the one it was given. *)
Ltac loop_outcome reg st c world :=
  let Hc := fresh "Hc" in
  pose proof (compileWriters_config reg st (length (Writers c)) 0 c
                (replicate (length (Writers c)) nil_Writer) world) as Hc;
  destruct (compileWriters _ _ _ _ _ _ _) as [[?c ?world] [?writers|?e]];
  simpl in Hc; subst.

(** Rounds that succeed can be run first: the loop goes on from where they
    leave the slice and the world. *)
Lemma compileWriters_split reg st n1 n2 i c writers world c1 world1 writers1 :
  (i + n1 ≤ length (Writers c))%nat →
  compileWriters reg st n1 i c writers world = (c1, world1, inl writers1) →
  compileWriters reg st (n1 + n2) i c writers world
  = compileWriters reg st n2 (i + n1) c writers1 world1.
Proof.
  revert i writers world.
  induction n1 as [|n1 IH]; intros i writers world Hlen Hrun; simpl in *.
  - injection Hrun as _ -> ->. by rewrite Nat.add_0_r.
  - destruct (Writers c !! i) as [wc|] eqn:Hi.
    + destruct (WriterConfig_Compile reg st wc world) as [[wc' world'] [writer [e|]]].
      * discriminate Hrun.
      * replace (i + S n1)%nat with (S i + n1)%nat by lia.
        apply IH; [lia|done].
    + apply lookup_ge_None in Hi. lia.
Qed.

Lemma compileWriters_fails reg st n i c writers world wc wc' world' out e :
  Writers c !! i = Some wc →
  WriterConfig_Compile reg st wc world = (wc', world', (out, Some e)) →
  compileWriters reg st (S n) i c writers world
  = (c, world',
     inr ("failed to parse config for writer #" +:+ pretty (i + 1)%nat +:+ ": " +:+ e)).
Proof. intros Hi Hwc. simpl. by rewrite Hi, Hwc. Qed.

(** ** The whole configuration *)

Lemma inert_test c :
  (length (Writers c) =? 0)%nat
  || match Config_MinLevel c with
     | Some l => l =? Disabled
     | None => false
     end = true
  ↔ inert c.
Proof.
  unfold inert. rewrite orb_true_iff, Nat.eqb_eq, length_zero_iff_nil.
  destruct (Config_MinLevel c) as [l|].
  - rewrite Z.eqb_eq. split; (intros [|Hl]; [by left|right]); congruence.
  - split; (intros [|Hl]; [by left|discriminate Hl]).
Qed.

Lemma Config_Compile_inert reg st order c world :
  inert c → Config_Compile reg st order c world = (c, world, (Some zerolog_Nop, None)).
Proof. intros Hin. apply inert_test in Hin. unfold Config_Compile. by rewrite Hin. Qed.

Lemma Config_Compile_fails reg st order c world i wc world1 writers1 wc' world2 out e :
  ¬ inert c →
  Writers c !! i = Some wc →
  compileWriters reg st i 0 c (replicate (length (Writers c)) nil_Writer) world
  = (c, world1, inl writers1) →
  WriterConfig_Compile reg st wc world1 = (wc', world2, (out, Some e)) →
  Config_Compile reg st order c world
  = (c, world2,
     (None,
      Some ("failed to parse config for writer #" +:+ pretty (i + 1)%nat +:+ ": " +:+ e))).
Proof.
  intros Hlive Hi Hpre Hwc. unfold Config_Compile.
  destruct (_ || _) eqn:Htest; [by apply inert_test in Htest|].
  pose proof (lookup_lt_Some _ _ _ Hi) as Hlt.
  assert (compileWriters reg st (length (Writers c)) 0 c
            (replicate (length (Writers c)) nil_Writer) world
          = (c, world2,
             inr ("failed to parse config for writer #" +:+ pretty (i + 1)%nat
                  +:+ ": " +:+ e))) as ->; [|reflexivity].
  replace (length (Writers c)) with (i + S (length (Writers c) - S i))%nat at 1 by lia.
  erewrite compileWriters_split; [|simpl; lia|exact Hpre].
  by erewrite compileWriters_fails.
Qed.

(** A descriptor that fails to compile in every world stops the loop, if
    no earlier one does. *)
Lemma compileWriters_rejects reg st n i j c writers world wc :
  (i ≤ j < i + n)%nat →
  Writers c !! j = Some wc →
  (∀ world0, (WriterConfig_Compile reg st wc world0).2.2 ≠ None) →
  ∃ world' e, compileWriters reg st n i c writers world = (c, world', inr e).
Proof.
  intros Hj Hwc Hbad. revert i writers world Hj.
  induction n as [|n IH]; intros i writers world Hj; [lia|].
  simpl.
  destruct (Writers c !! i) as [wci|] eqn:Hi.
  - destruct (WriterConfig_Compile reg st wci world)
      as [[wc' world'] [writer [e|]]] eqn:Hrun.
    + eauto.
    + destruct (decide (i = j)) as [->|Hne].
      * rewrite Hwc in Hi. injection Hi as <-.
        specialize (Hbad world). rewrite Hrun in Hbad. by destruct Hbad.
      * apply IH. lia.
  - apply lookup_ge_None in Hi. apply lookup_lt_Some in Hwc. lia.
Qed.

Lemma Config_Compile_rejects reg st order c world j wc :
  Config_MinLevel c ≠ Some Disabled →
  Writers c !! j = Some wc →
  (∀ world0, (WriterConfig_Compile reg st wc world0).2.2 ≠ None) →
  ∃ world' e, Config_Compile reg st order c world = (c, world', (None, Some e)).
Proof.
  intros Hmin Hwc Hbad. unfold Config_Compile.
  destruct (_ || _) eqn:Htest.
  { apply inert_test in Htest as [Hnil|Hdis]; [|done]. by rewrite Hnil in Hwc. }
  pose proof (lookup_lt_Some _ _ _ Hwc) as Hlt.
  destruct (compileWriters_rejects reg st (length (Writers c)) 0 j c
              (replicate (length (Writers c)) nil_Writer) world wc)
    as (world' & e & ->); [lia|done..|].
  eauto.
Qed.

(** Wherever it stands among the writers, a descriptor whose type is not
    registered makes Config.Compile return an error and no logger, unless
    the minimum level is Disabled. *)
Lemma Config_Compile_rejects_unknown_type reg st order c world j wc :
  Config_MinLevel c ≠ Some Disabled →
  Writers c !! j = Some wc →
  reg !! Type_ wc = None →
  ∃ world' e, Config_Compile reg st order c world = (c, world', (None, Some e)).
Proof.
  intros Hmin Hwc Hreg. eapply Config_Compile_rejects; [done..|].
  intros world0.
  erewrite WriterConfig_Compile_failed by (by apply compileMain_unknown).
  done.
Qed.

(** The same for a format without a case in the switch, when the
    constructor registered for the type leaves the format as it is. *)
Lemma Config_Compile_rejects_unknown_format reg st order c world j wc compiler :
  Config_MinLevel c ≠ Some Disabled →
  Writers c !! j = Some wc →
  reg !! Type_ wc = Some compiler →
  (∀ world0, Format (compiler st wc world0).1.1 = Format wc) →
  ¬ known_format (Format wc) →
  ∃ world' e, Config_Compile reg st order c world = (c, world', (None, Some e)).
Proof.
  intros Hmin Hwc Hreg Hkeep Hfmt. eapply Config_Compile_rejects; [done..|].
  intros world0. unfold WriterConfig_Compile.
  rewrite (compileMain_known _ _ _ _ _ Hreg).
  specialize (Hkeep world0).
  destruct (compiler st wc world0) as [[wc' world'] [out [e|]]]; [done|].
  simpl in Hkeep. rewrite applyFormat_unknown by (by rewrite Hkeep). done.
Qed.

(** The constructors config.go registers return the descriptor as they
    received it; the one of config_js.go changes its format only. *)
Lemma builtin_constructors_keep_descriptor st wc world :
  (compileMain writerCompilers st wc world).1.1 = wc.
Proof.
  unfold compileMain, writerCompilers, WriterCompiler. simpl.
  repeat (rewrite lookup_insert; case_decide; [try reflexivity|]).
  - unfold compileFile. by destruct (lumberjack_Rotate _ _) as [world' [e|]].
  - by rewrite lookup_empty.
Qed.

Lemma js_constructors_keep_bounds st wc world :
  let wc' := (compileMain (init_js writerCompilers) st wc world).1.1 in
  MinLevel wc' = MinLevel wc ∧ MaxLevel wc' = MaxLevel wc
  ∧ TimeFormat wc' = TimeFormat wc ∧ Type_ wc' = Type_ wc.
Proof.
  pose proof (builtin_constructors_keep_descriptor st wc world) as Hkeep.
  unfold compileMain, init_js, WriterCompiler in *. simpl.
  rewrite lookup_insert. case_decide; [done|]. rewrite Hkeep. done.
Qed.

Lemma Logger_log_Nop lvl fields msg world :
  Logger_log zerolog_Nop lvl fields msg world = Some (world, tt).
Proof.
  unfold Logger_log, Logger_should. simpl.
  destruct (lvl =? Disabled); [reflexivity|].
  destruct (lvl <? Disabled); reflexivity.
Qed.

Lemma Logger_run_Nop calls world :
  Logger_run zerolog_Nop calls world = Some (world, tt).
Proof.
  induction calls as [|call calls IH]; simpl; [reflexivity|].
  unfold bind. by rewrite Logger_log_Nop.
Qed.

(** C2: for a configuration with no writers, and for one whose minimum
    level is Disabled, Config.Compile succeeds with zerolog's no-op logger,
    whatever the other fields and the registry hold, nothing is compiled
    or touched, and no sequence of log calls on that logger changes the
    world. *)
Theorem Compile_inert_is_Nop reg st order c world :
  Writers c = [] ∨ Config_MinLevel c = Some Disabled →
  Config_Compile reg st order c world = (c, world, (Some zerolog_Nop, None))
  ∧ ∀ calls world', Logger_run zerolog_Nop calls world' = Some (world', tt).
Proof.
  intros Hin. split.
  - by apply Config_Compile_inert.
  - apply Logger_run_Nop.
Qed.

(** C3, as amended: when the minimum level is not Disabled, a writer
    whose type is not in the registry, or whose format has no case in the
    switch and is left in place by its constructor, makes Config.Compile
    return an error and no logger; and when the writers before it compile,
    the text of the error gives its position, counted from one, and the
    quoted tag. *)
Theorem Compile_reports_bad_tag reg st order c world i wc :
  Config_MinLevel c ≠ Some Disabled →
  Writers c !! i = Some wc →
  (reg !! Type_ wc = None →
     (∃ world' e, Config_Compile reg st order c world = (c, world', (None, Some e)))
     ∧ ∀ world1 writers1,
         compileWriters reg st i 0 c (replicate (length (Writers c)) nil_Writer) world
         = (c, world1, inl writers1) →
         Config_Compile reg st order c world
         = (c, world1,
            (None,
             Some ("failed to parse config for writer #" +:+ pretty (i + 1)%nat
                   +:+ ": unknown writer type " +:+ strconv_Quote (Type_ wc)))))
  ∧ (∀ compiler, reg !! Type_ wc = Some compiler →
       ((∀ world0, Format (compiler st wc world0).1.1 = Format wc) →
        ¬ known_format (Format wc) →
        ∃ world' e, Config_Compile reg st order c world = (c, world', (None, Some e)))
       ∧ ∀ world1 writers1 wc' world2 out,
           compileWriters reg st i 0 c (replicate (length (Writers c)) nil_Writer) world
           = (c, world1, inl writers1) →
           compiler st wc world1 = (wc', world2, (out, None)) →
           ¬ known_format (Format wc') →
           Config_Compile reg st order c world
           = (c, world2,
              (None,
               Some ("failed to parse config for writer #" +:+ pretty (i + 1)%nat
                     +:+ ": unknown format " +:+ strconv_Quote (Format wc'))))).
Proof.
  intros Hmin Hi.
  assert (¬ inert c) as Hlive.
  { intros [Hnil|Hdis]; [|done]. by rewrite Hnil in Hi. }
  split.
  - intros Hreg. split.
    + by eapply Config_Compile_rejects_unknown_type.
    + intros world1 writers1 Hpre.
      eapply Config_Compile_fails; [exact Hlive|exact Hi|exact Hpre|].
      eapply WriterConfig_Compile_failed. by apply compileMain_unknown.
  - intros compiler Hreg. split.
    + intros Hkeep Hfmt. by eapply Config_Compile_rejects_unknown_format.
    + intros world1 writers1 wc' world2 out Hpre Hrun Hfmt.
      eapply Config_Compile_fails; [exact Hlive|exact Hi|exact Hpre|].
      eapply WriterConfig_Compile_bad_format; [|by apply applyFormat_unknown].
      by rewrite (compileMain_known _ _ _ _ _ Hreg).
Qed.

(** ** Metadata *)

Lemma collectKeys_go (pre order : list string) (k : nat) :
  length order = k →
  foldl (λ '(keys, i) key, (<[i := key]> keys, S i))
        (pre ++ replicate k EmptyString, length pre) order
  = (pre ++ order, (length pre + k)%nat).
Proof.
  revert pre k. induction order as [|key order IH]; intros pre k Hlen; simpl in *.
  - subst k. simpl. by rewrite Nat.add_0_r.
  - destruct k as [|k]; [discriminate Hlen|]. injection Hlen as Hlen.
    replace (<[length pre := key]> (pre ++ replicate (S k) EmptyString))
      with ((pre ++ [key]) ++ replicate k EmptyString).
    + replace (S (length pre)) with (length (pre ++ [key]))
        by (rewrite length_app; simpl; lia).
      rewrite (IH _ _ Hlen), <- app_assoc, length_app. simpl. f_equal. lia.
    + rewrite <- (Nat.add_0_r (length pre)), insert_app_r, <- app_assoc.
      reflexivity.
Qed.

(** Collecting the keys keeps the order in which the map yields them. *)
Lemma collectKeys_order (order : list string) :
  collectKeys (length order) order = order.
Proof.
  unfold collectKeys.
  change (replicate (length order) EmptyString, O)
    with ([] ++ replicate (length order) EmptyString, length (@nil string)).
  by rewrite (collectKeys_go [] order (length order) eq_refl).
Qed.

Lemma sort_Strings_sorted keys : StronglySorted String.le (sort_Strings keys).
Proof. apply (StronglySorted_merge_sort _). Qed.

Lemma sort_Strings_perm keys : sort_Strings keys ≡ₚ keys.
Proof. apply merge_sort_Permutation. Qed.

(** The sorted slice depends on the set of keys only. *)
Lemma sort_Strings_order keys1 keys2 :
  keys1 ≡ₚ keys2 → sort_Strings keys1 = sort_Strings keys2.
Proof.
  intros Hp. apply (StronglySorted_unique String.le); try apply sort_Strings_sorted.
  by rewrite !sort_Strings_perm.
Qed.

Lemma foldl_Context_Interface (f : string → any) (lg : Logger) (keys : list string) :
  foldl (λ with_ key, Context_Interface with_ key (f key)) lg keys
  = {| w := w lg; level := level lg; hooks := hooks lg;
       context := context lg ++ ((λ key, (key, f key)) <$> keys) |}.
Proof.
  revert lg. induction keys as [|key keys IH]; intros lg; simpl.
  - rewrite app_nil_r. by destruct lg.
  - rewrite IH. simpl. by rewrite <- app_assoc.
Qed.

Lemma Config_Compile_context reg st order c world c' world' log :
  ¬ inert c →
  Config_Compile reg st order c world = (c', world', (Some log, None)) →
  context log = attached c order.
Proof.
  intros Hlive. unfold Config_Compile, attached.
  destruct (_ || _) eqn:Htest; [by apply inert_test in Htest|].
  loop_outcome reg st c world; [|discriminate].
  intros Heq. injection Heq as _ _ <-.
  destruct (0 <? size (Metadata c))%nat;
    [rewrite foldl_Context_Interface|];
    destruct (Config_MinLevel c), (Timestamp c) as [[]|], (Caller c); reflexivity.
Qed.

Lemma range_order_length c (order : list string) :
  order ≡ₚ (map_to_list (Metadata c)).*1 → length order = size (Metadata c).
Proof.
  intros Hp. by rewrite (Permutation_length Hp), length_fmap, length_map_to_list.
Qed.

Lemma attached_perm c (order : list string) :
  order ≡ₚ (map_to_list (Metadata c)).*1 →
  attached c order ≡ₚ map_to_list (Metadata c)
  ∧ (attached c order).*1 = sort_Strings order.
Proof.
  intros Hp. pose proof (range_order_length _ _ Hp) as Hlen.
  unfold attached. rewrite <- Hlen, collectKeys_order.
  destruct (0 <? length order)%nat eqn:Hpos.
  - split.
    + rewrite sort_Strings_perm, Hp, <- list_fmap_compose.
      rewrite <- (list_fmap_id (map_to_list (Metadata c))) at 2.
      rewrite (list_fmap_ext _ id); [reflexivity|].
      intros i [key x] Hix. simpl.
      apply list_elem_of_lookup_2, elem_of_map_to_list in Hix. by rewrite Hix.
    + rewrite <- list_fmap_compose. apply list_fmap_id.
  - apply Nat.ltb_ge in Hpos.
    assert (order = []) as -> by (apply length_zero_iff_nil; lia).
    symmetry in Hp. apply Permutation_nil_r, fmap_nil_inv in Hp.
    by rewrite Hp.
Qed.

(** C6: when Config.Compile assembles a logger, the context fields of the
    logger are the entries of the metadata map, each once, in increasing
    order of their keys under the byte-wise order of strings; and the
    result of Config.Compile is the same for every order in which the
    map yields its keys. *)
Theorem metadata_sorted_by_key reg st order c world c' world' log :
  order ≡ₚ (map_to_list (Metadata c)).*1 →
  Writers c ≠ [] →
  Config_MinLevel c ≠ Some Disabled →
  Config_Compile reg st order c world = (c', world', (Some log, None)) →
  context log ≡ₚ map_to_list (Metadata c)
  ∧ StronglySorted String.le (context log).*1
  ∧ NoDup (context log).*1
  ∧ ∀ order', order' ≡ₚ (map_to_list (Metadata c)).*1 →
      Config_Compile reg st order' c world = Config_Compile reg st order c world.
Proof.
  intros Hp Hws Hmin Hcompile.
  assert (¬ inert c) as Hlive by (intros [|]; done).
  rewrite (Config_Compile_context _ _ _ _ _ _ _ _ Hlive Hcompile).
  destruct (attached_perm _ _ Hp) as [Hperm Hkeys].
  split; [done|]. rewrite Hkeys. split; [apply sort_Strings_sorted|]. split.
  - rewrite sort_Strings_perm, Hp. apply NoDup_fst_map_to_list.
  - intros order' Hp'.
    pose proof (range_order_length _ _ Hp) as Hlen.
    pose proof (range_order_length _ _ Hp') as Hlen'.
    assert (sort_Strings (collectKeys (size (Metadata c)) order')
            = sort_Strings (collectKeys (size (Metadata c)) order)) as Hsame.
    { rewrite <- Hlen' at 1. rewrite <- Hlen at 1. rewrite !collectKeys_order.
      apply sort_Strings_order. by rewrite Hp, Hp'. }
    unfold Config_Compile.
    destruct (_ || _); [reflexivity|].
    loop_outcome reg st c world; [|reflexivity].
    by rewrite Hsame.
Qed.


End Properties.

(** * Further properties of the package *)

Section Writers.
Context `{Collaborators}.
Implicit Types (writer : Writer) (world : World) (p : list byte).

(** ** The window and the adapter *)

(** X1: the window limits WriteLevel only.  The Write method of a window
    is the one of the writer inside, promoted through the embedded field,
    so a plain Write passes whatever the bounds are, also when another
    writer holds the window as its output. *)
Theorem Write_is_not_windowed writer (min max : Level) p :
  Write (MinMaxLevelWriter writer min max) p = Write writer p
  ∧ (∀ l, WriteLevel (levelWriterAdapter (MinMaxLevelWriter writer min max)) l p
          = Write writer p)
  ∧ (∀ noColor timeFormat,
       Write (ConsoleWriter (MinMaxLevelWriter writer min max) noColor timeFormat) p
       = Write (ConsoleWriter writer noColor timeFormat) p).
Proof.
  assert (∀ q, Write (MinMaxLevelWriter writer min max) q = Write writer q) as Hw.
  { intros q. unfold MinMaxLevelWriter. destruct (is_LevelWriter writer); reflexivity. }
  split; [apply Hw|]. split.
  - intros l. apply Hw.
  - intros noColor timeFormat.
    change (Write (ConsoleWriter ?out noColor timeFormat) p)
      with (match console_render noColor timeFormat p with
            | inr e => ret (0, Some e)
            | inl line => bind (Write out line) (λ r, ret (len p, r.2))
            end).
    destruct (console_render noColor timeFormat p) as [line|e]; [|reflexivity].
    by rewrite Hw.
Qed.

Lemma WriteLevel_window_cases writer (min max l : Level) p world :
  WriteLevel (MinMaxLevelWriter writer min max) l p world
  = if decide (inside min max l) then inner_write writer l p world
    else Some (world, (len p, None)).
Proof.
  assert (Decision (inside min max l)) by (unfold inside; apply _).
  case_decide.
  - by rewrite WriteLevel_inside.
  - by rewrite WriteLevel_outside.
Qed.

(** X2: a window around a window lets through the levels that lie in both,
    and it does not matter which of the two is outside. *)
Theorem nested_windows_intersect writer (a b c d l : Level) p world :
  (inside a b l ∧ inside c d l →
     WriteLevel (MinMaxLevelWriter (MinMaxLevelWriter writer a b) c d) l p world
     = inner_write writer l p world)
  ∧ (¬ (inside a b l ∧ inside c d l) →
     WriteLevel (MinMaxLevelWriter (MinMaxLevelWriter writer a b) c d) l p world
     = Some (world, (len p, None)))
  ∧ WriteLevel (MinMaxLevelWriter (MinMaxLevelWriter writer a b) c d) l p world
    = WriteLevel (MinMaxLevelWriter (MinMaxLevelWriter writer c d) a b) l p world.
Proof.
  assert (∀ a b c d,
            WriteLevel (MinMaxLevelWriter (MinMaxLevelWriter writer a b) c d) l p world
            = if decide (inside a b l ∧ inside c d l) then inner_write writer l p world
              else Some (world, (len p, None))) as Hnest.
  { intros a' b' c' d'. rewrite WriteLevel_window_cases.
    change (inner_write (MinMaxLevelWriter writer a' b') l p world)
      with (WriteLevel (MinMaxLevelWriter writer a' b') l p world).
    rewrite WriteLevel_window_cases.
    repeat case_decide; try reflexivity; tauto. }
  split; [|split].
  - intros Hin. rewrite Hnest. by case_decide.
  - intros Hout. rewrite Hnest. by case_decide.
  - rewrite !Hnest. repeat case_decide; try reflexivity; tauto.
Qed.

(** X3: a writer without a WriteLevel method is reached through its Write,
    so the level of a record that passes the window is lost on the way; a
    writer with the method receives the level. *)
Theorem window_adapts_plain_writers writer (min max l : Level) p world :
  inside min max l →
  (is_LevelWriter writer = false →
     WriteLevel (MinMaxLevelWriter writer min max) l p world = Write writer p world)
  ∧ (is_LevelWriter writer = true →
     WriteLevel (MinMaxLevelWriter writer min max) l p world
     = WriteLevel writer l p world).
Proof.
  intros Hin. rewrite WriteLevel_inside by done. unfold inner_write.
  split; intros ->; reflexivity.
Qed.

(** X4: Disabled is above every level a record can have, so a window whose
    minimum is Disabled filters every record, whatever its maximum. *)
Theorem Disabled_minimum_filters_all (max l : Level) p world :
  l < Disabled → filters Disabled max l p world.
Proof.
  intros Hl writer. rewrite WriteLevel_outside; [done|].
  unfold inside, Disabled, NoLevel in *. lia.
Qed.

(** X5: a record without a level carries NoLevel, which counts as above
    panic: the window forwards it exactly when its minimum is at most
    NoLevel and its maximum at least NoLevel, so every maximum from trace
    to panic filters it and every minimum from trace to panic lets it
    through. *)
Theorem NoLevel_records (min max : Level) p world :
  (forwards min max NoLevel p world ↔ min <= NoLevel ∧ NoLevel <= max)
  ∧ (max < NoLevel → filters min max NoLevel p world).
Proof.
  assert (inside min max NoLevel ↔ min <= NoLevel ∧ NoLevel <= max) as Hin.
  { unfold inside, NoLevel. lia. }
  split; [split|].
  - intros Hfw. apply Hin.
    destruct (inside_dec min max NoLevel) as [|Hout]; [done|].
    specialize (Hfw nil_Writer).
    rewrite (WriteLevel_outside _ _ _ _ _ Hout) in Hfw. discriminate Hfw.
  - intros Hb writer. rewrite WriteLevel_inside; [done|]. by apply Hin.
  - intros Hmax writer. rewrite WriteLevel_outside; [done|].
    rewrite Hin. lia.
Qed.

(** ** The writer to the JS console *)

(** X6: JSWriter never reports an error or a short write: a call that
    returns reports the whole payload written.  For Disabled it returns
    so without calling the console; for any other level it returns exactly
    when the console call does; and Write is WriteLevel at debug level. *)
Theorem JSWriter_reports_all (l : Level) p world :
  WriteLevel JSWriter Disabled p world = Some (world, (len p, None))
  ∧ (∀ r, WriteLevel JSWriter l p world = Some r → r.2 = (len p, None))
  ∧ (l ≠ Disabled →
     WriteLevel JSWriter l p world
     = (λ world', (world', (len p, None))) <$> js_console_Call (JSWriter_method l) p world)
  ∧ Write JSWriter p world = WriteLevel JSWriter DebugLevel p world.
Proof.
  cbn [WriteLevel Write]. unfold JSWriter_WriteLevel.
  split; [reflexivity|]. split; [|split; [|reflexivity]].
  - intros r. destruct (Z.eqb_spec l Disabled).
    + intros [= <-]. reflexivity.
    + destruct (js_console_Call _ _ _); intros [= <-]. reflexivity.
  - intros Hl. destruct (Z.eqb_spec l Disabled); [done|].
    by destruct (js_console_Call _ _ _).
Qed.

(** X7: the console method JSWriter picks: debug for trace, log for debug
    and for records without level, info, warn, and error for error, fatal
    and panic alike.  The switch has no default case: for a level outside
    trace..NoLevel, other than Disabled, the method name is empty. *)
Theorem JSWriter_method_table (l : Level) :
  (JSWriter_method l = "debug" ↔ l = TraceLevel)
  ∧ (JSWriter_method l = "log" ↔ l = DebugLevel ∨ l = NoLevel)
  ∧ (JSWriter_method l = "info" ↔ l = InfoLevel)
  ∧ (JSWriter_method l = "warn" ↔ l = WarnLevel)
  ∧ (JSWriter_method l = "error" ↔ ErrorLevel <= l <= PanicLevel)
  ∧ (JSWriter_method l = "" ↔ l < TraceLevel ∨ NoLevel < l).
Proof.
  unfold JSWriter_method, TraceLevel, DebugLevel, InfoLevel, WarnLevel, ErrorLevel,
    FatalLevel, PanicLevel, NoLevel.
  destruct (Z.eqb_spec l (-1)); [repeat split; intros; try done; lia|].
  destruct (Z.eqb_spec l 0); [repeat split; intros; try done; lia|].
  destruct (Z.eqb_spec l 6); [repeat split; intros; try done; lia|].
  destruct (Z.eqb_spec l 1); [repeat split; intros; try done; lia|].
  destruct (Z.eqb_spec l 2); [repeat split; intros; try done; lia|].
  destruct (Z.eqb_spec l 3); [repeat split; intros; try done; lia|].
  destruct (Z.eqb_spec l 4); [repeat split; intros; try done; lia|].
  destruct (Z.eqb_spec l 5); [repeat split; intros; try done; lia|].
  simpl. repeat split; intros; try done; lia.
Qed.

End Writers.

Section Compiling.
Context `{Collaborators}.
Implicit Types (reg : gmap string WriterCompiler) (st : Streams).
Implicit Types (wc : WriterConfig) (world : World) (c : Config).

(** ** Constructors *)

(** WriterConfig.Compile hands back the descriptor and the world as the
    constructor left them: the format and level steps touch neither. *)
Lemma WriterConfig_Compile_state reg st wc world :
  (WriterConfig_Compile reg st wc world).1 = (compileMain reg st wc world).1.
Proof.
  unfold WriterConfig_Compile.
  destruct (compileMain reg st wc world) as [[wc' world'] [out [e|]]]; [reflexivity|].
  destruct (applyFormat wc' out); reflexivity.
Qed.

Lemma applyFormat_known wc out :
  known_format (Format wc) ↔ ∃ fout, applyFormat wc out = inl fout.
Proof.
  split.
  - intros [Hf|[Hf|[Hf|Hf]]].
    + rewrite applyFormat_json by auto. eauto.
    + rewrite applyFormat_json by auto. eauto.
    + rewrite applyFormat_pretty by auto. eauto.
    + rewrite applyFormat_pretty by auto. eauto.
  - intros [fout Hfmt].
    destruct (decide (known_format (Format wc))) as [|Hunk]; [done|].
    rewrite applyFormat_unknown in Hfmt by done. discriminate Hfmt.
Qed.

(** X8: when the rotation of a file writer's log fails, and the writers
    before it compiled, Config.Compile returns no logger and the error of
    the rotation behind the position of the writer; the world is the one
    the failed rotation left. *)
Theorem file_Rotate_error_is_reported reg st order c world i wc world1 writers1 world2 e :
  Config_MinLevel c ≠ Some Disabled →
  Writers c !! i = Some wc →
  reg !! Type_ wc = Some compileFile →
  compileWriters reg st i 0 c (replicate (length (Writers c)) nil_Writer) world
  = (c, world1, inl writers1) →
  lumberjack_Rotate (File wc) world1 = (world2, Some e) →
  Config_Compile reg st order c world
  = (c, world2,
     (None,
      Some ("failed to parse config for writer #" +:+ pretty (i + 1)%nat +:+ ": " +:+ e))).
Proof.
  intros Hmin Hi Hreg Hpre Hrot.
  eapply Config_Compile_fails; [|exact Hi|exact Hpre|].
  - intros [Hnil|Hdis]; [|done]. by rewrite Hnil in Hi.
  - eapply WriterConfig_Compile_failed.
    rewrite (compileMain_known _ _ _ _ _ Hreg). unfold compileFile. by rewrite Hrot.
Qed.

(** X9: a descriptor of a type served by compileFile compiles exactly when
    the rotation succeeds and the format has a case in the switch.  The
    rotation comes first: its effect on the world stays when the format
    is then rejected, and the descriptor is never changed.  With the JSON
    format the writer is the lumberjack logger with the descriptor's six
    file settings, behind the level window if any. *)
Theorem file_compiles_iff_rotated reg st wc world :
  reg !! Type_ wc = Some compileFile →
  (WriterConfig_Compile reg st wc world).1
  = (wc, (lumberjack_Rotate (File wc) world).1)
  ∧ ((WriterConfig_Compile reg st wc world).2.2 = None
     ↔ (lumberjack_Rotate (File wc) world).2 = None ∧ known_format (Format wc))
  ∧ ((lumberjack_Rotate (File wc) world).2 = None →
     Format wc = "" ∨ Format wc = LogFormatJSON →
     (WriterConfig_Compile reg st wc world).2
     = (applyLevels wc (lumberjack_Logger (File wc)), None)).
Proof.
  intros Hreg. unfold WriterConfig_Compile.
  rewrite (compileMain_known _ _ _ _ _ Hreg). unfold compileFile.
  destruct (lumberjack_Rotate (File wc) world) as [world' [e|]]; simpl.
  - split; [reflexivity|]. split; [|done].
    split; [done|]. by intros [? _].
  - destruct (applyFormat wc (lumberjack_Logger (File wc))) as [fout|e] eqn:Hfmt; simpl.
    + split; [reflexivity|]. split.
      * split; [|done]. intros _. split; [done|].
        apply (applyFormat_known wc (lumberjack_Logger (File wc))). eauto.
      * intros _ Hjson. rewrite (applyFormat_json _ _ Hjson) in Hfmt.
        by injection Hfmt as <-.
    + split; [reflexivity|]. split.
      * split; [done|]. intros [_ Hk].
        apply (applyFormat_known wc (lumberjack_Logger (File wc))) in Hk as [fout Hk].
        congruence.
      * intros _ Hjson. rewrite (applyFormat_json _ _ Hjson) in Hfmt. discriminate Hfmt.
Qed.

Lemma unsupported_lookup wt :
  wt = WriterTypeSyslog ∨ wt = WriterTypeSyslogCEE ∨ wt = WriterTypeJournald →
  writerCompilers !! wt = Some compileUnsupported.
Proof. intros [->|[->| ->]]; reflexivity. Qed.

(** X10: in a build without the unix registrations, a descriptor of type
    syslog, syslog-cee or journald never compiles: the error says that
    the type is not supported on this OS, nothing is touched, and a
    configuration that holds such a descriptor anywhere yields no logger
    unless its minimum level is Disabled. *)
Theorem unsupported_types_fail st order c world j wc :
  Config_MinLevel c ≠ Some Disabled →
  Writers c !! j = Some wc →
  Type_ wc = WriterTypeSyslog ∨ Type_ wc = WriterTypeSyslogCEE
  ∨ Type_ wc = WriterTypeJournald →
  (∀ world0,
     WriterConfig_Compile writerCompilers st wc world0
     = (wc, world0,
        (nil_Writer,
         Some ("writer type " +:+ strconv_Quote (Type_ wc)
               +:+ " not supported on this OS"))))
  ∧ ∃ world' e,
      Config_Compile writerCompilers st order c world = (c, world', (None, Some e)).
Proof.
  intros Hmin Hj Hty.
  assert (∀ world0,
            WriterConfig_Compile writerCompilers st wc world0
            = (wc, world0,
               (nil_Writer,
                Some ("writer type " +:+ strconv_Quote (Type_ wc)
                      +:+ " not supported on this OS")))) as Hfail.
  { intros world0. eapply WriterConfig_Compile_failed.
    by rewrite (compileMain_known _ _ _ _ _ (unsupported_lookup _ Hty)). }
  split; [exact Hfail|].
  eapply Config_Compile_rejects; [done..|].
  intros world0. by rewrite Hfail.
Qed.

(** ** The registry *)

Lemma compileWriters_ext reg1 reg2 st n i c writers world :
  (∀ wc world0, wc ∈ Writers c →
     WriterConfig_Compile reg1 st wc world0 = WriterConfig_Compile reg2 st wc world0) →
  compileWriters reg1 st n i c writers world = compileWriters reg2 st n i c writers world.
Proof.
  intros Hext. revert i writers world.
  induction n as [|n IH]; intros i writers world; simpl; [reflexivity|].
  destruct (Writers c !! i) as [wc|] eqn:Hi; [|reflexivity].
  rewrite (Hext wc world) by (by eapply list_elem_of_lookup_2).
  destruct (WriterConfig_Compile reg2 st wc world) as [[wc' world'] [writer [e|]]];
    [reflexivity|apply IH].
Qed.

(** X11: a registration matters only to the configurations that use its
    type: when no writer of the configuration has the type registered,
    Config.Compile gives the same result, and leaves the same world, with
    and without the registration. *)
Theorem RegisterWriter_only_for_its_type reg st order c world
    (wt : WriterType) (compiler : WriterCompiler) :
  Forall (λ wc, Type_ wc ≠ wt) (Writers c) →
  Config_Compile (RegisterWriter wt compiler reg) st order c world
  = Config_Compile reg st order c world.
Proof.
  intros Hother. unfold Config_Compile.
  rewrite (compileWriters_ext (RegisterWriter wt compiler reg) reg); [reflexivity|].
  intros wc world0 Hwc. rewrite Forall_forall in Hother.
  unfold WriterConfig_Compile, compileMain, RegisterWriter, WriterCompiler.
  by rewrite lookup_insert_ne by (apply not_eq_sym, Hother, Hwc).
Qed.

(** X12: no constructor that config.go registers changes the descriptor it
    is handed, and with the registration of config_js.go only a descriptor
    of type js is changed, in its format alone. *)
Theorem package_constructors_keep_descriptor st wc world :
  (WriterConfig_Compile writerCompilers st wc world).1.1 = wc
  ∧ (Type_ wc ≠ WriterTypeJS →
     (WriterConfig_Compile (init_js writerCompilers) st wc world).1.1 = wc)
  ∧ (Type_ wc = WriterTypeJS →
     (WriterConfig_Compile (init_js writerCompilers) st wc world).1.1
     = set_Format wc LogFormatJSON).
Proof.
  rewrite !WriterConfig_Compile_state.
  pose proof (builtin_constructors_keep_descriptor st wc world) as Hkeep.
  split; [exact Hkeep|]. split.
  - intros Hty. unfold compileMain, init_js, WriterCompiler in *.
    by rewrite lookup_insert_ne.
  - intros Hty.
    by rewrite (compileMain_known _ _ _ _ compileJS)
      by (rewrite Hty; apply lookup_insert_eq).
Qed.

End Compiling.

Section Assembly.
Context `{Collaborators}.
Implicit Types (reg : gmap string WriterCompiler) (st : Streams).
Implicit Types (wc : WriterConfig) (world : World) (c : Config).
Implicit Types (writers ws : list Writer).

(** ** The slice of compiled writers *)

Lemma compileWriters_slots reg st n i c writers world c' world' ws :
  (i + n ≤ length writers)%nat →
  length writers = length (Writers c) →
  compileWriters reg st n i c writers world = (c', world', inl ws) →
  length ws = length writers
  ∧ (∀ j, (j < i ∨ i + n ≤ j)%nat → ws !! j = writers !! j)
  ∧ (∀ j wc, (i ≤ j < i + n)%nat → Writers c !! j = Some wc →
       ∃ world0 wc' world1 x,
         WriterConfig_Compile reg st wc world0 = (wc', world1, (x, None))
         ∧ ws !! j = Some x).
Proof.
  revert i writers world.
  induction n as [|n IH]; intros i writers world Hn Hlen Hrun; simpl in Hrun.
  - injection Hrun as _ _ <-. split; [done|]. split; [done|]. intros; lia.
  - destruct (Writers c !! i) as [wci|] eqn:Hi;
      [|apply lookup_ge_None in Hi; lia].
    destruct (WriterConfig_Compile reg st wci world)
      as [[wci' worldi] [x [e|]]] eqn:Hx; [discriminate Hrun|].
    apply IH in Hrun as (Hl & Hframe & Hslots);
      [|rewrite length_insert; lia|by rewrite length_insert].
    rewrite length_insert in Hl. split; [done|]. split.
    + intros j Hj. rewrite Hframe by lia. apply list_lookup_insert_ne. lia.
    + intros j wc Hj Hwc. destruct (decide (j = i)) as [->|Hne].
      * rewrite Hi in Hwc. injection Hwc as <-.
        exists world, wci', worldi, x. split; [done|].
        rewrite Hframe by lia. apply list_lookup_insert_eq. lia.
      * apply (Hslots j wc); [lia|done].
Qed.

(** X13: when the loop over the writers ends without error, the slice it
    filled has one writer for each descriptor, at the descriptor's own
    index, and each is what WriterConfig.Compile returned, without error,
    for that descriptor: no slot is left nil by the loop or written twice. *)
Theorem writers_slice_is_complete reg st c world c' world' ws :
  compileWriters reg st (length (Writers c)) 0 c
    (replicate (length (Writers c)) nil_Writer) world
  = (c', world', inl ws) →
  length ws = length (Writers c)
  ∧ ∀ j wc, Writers c !! j = Some wc →
      ∃ world0 wc' world1 x,
        WriterConfig_Compile reg st wc world0 = (wc', world1, (x, None))
        ∧ ws !! j = Some x.
Proof.
  intros Hrun.
  apply compileWriters_slots in Hrun as (Hl & _ & Hslots);
    rewrite ?length_replicate in *; [|simpl; lia|done].
  split; [done|]. intros j wc Hwc. apply (Hslots j wc); [|done].
  apply lookup_lt_Some in Hwc. lia.
Qed.

(** ** The logger *)

(** The logger Config.Compile assembles around the compiled writers. *)
Lemma Config_Compile_assembled reg st order c world world' ws :
  ¬ inert c →
  compileWriters reg st (length (Writers c)) 0 c
    (replicate (length (Writers c)) nil_Writer) world
  = (c, world', inl ws) →
  Config_Compile reg st order c world
  = (c, world',
     (Some {| w := w (zerolog_New
                       (if (length ws =? 1)%nat then nth 0 ws nil_Writer
                        else if (1 <? length ws)%nat then zerolog_MultiLevelWriter ws
                        else nil_Writer));
              level := default TraceLevel (Config_MinLevel c);
              hooks := match Timestamp c with
                       | Some false => []
                       | _ => [timestampHook]
                       end ++ (if Caller c then [callerHook] else []);
              context := attached c order |},
      None)).
Proof.
  intros Hlive Hrun. unfold Config_Compile, attached.
  destruct (_ || _) eqn:Htest; [by apply inert_test in Htest|].
  rewrite Hrun.
  destruct (0 <? size (Metadata c))%nat;
    [rewrite foldl_Context_Interface|];
    destruct (Config_MinLevel c), (Timestamp c) as [[]|], (Caller c); reflexivity.
Qed.

(** X14: the sink of the logger.  With one writer the logger writes to it
    directly, through its own WriteLevel when it has one; with two or
    more it writes to a zerolog multi-writer over all of them, in the
    order of the configuration, each one adapted if it has no WriteLevel. *)
Theorem logger_sink reg st order c world world' ws :
  Config_MinLevel c ≠ Some Disabled →
  Writers c ≠ [] →
  compileWriters reg st (length (Writers c)) 0 c
    (replicate (length (Writers c)) nil_Writer) world
  = (c, world', inl ws) →
  ∃ log,
    Config_Compile reg st order c world = (c, world', (Some log, None))
    ∧ (∀ x, ws = [x] →
         w log = w (zerolog_New x) ∧ (is_LevelWriter x = true → w log = x))
    ∧ ((2 ≤ length ws)%nat →
         w log = multiLevelWriter
                   ((λ x, if is_LevelWriter x then x else levelWriterAdapter x) <$> ws)).
Proof.
  intros Hmin Hws Hrun.
  assert (¬ inert c) as Hlive by (intros [|]; done).
  eexists. split; [by apply Config_Compile_assembled|]. simpl. split.
  - intros x ->. simpl. split; [reflexivity|].
    intros Hlw. destruct x; try discriminate Hlw; simpl in *; by rewrite ?Hlw.
  - intros Hlen.
    destruct (Nat.eqb_spec (length ws) 1) as [|_]; [lia|].
    destruct (Nat.ltb_spec 1 (length ws)) as [_|]; [|lia].
    reflexivity.
Qed.

(** X15: the options of the logger.  It has the timestamp hook unless the
    configuration says timestamp false, so also when it says nothing; the
    caller hook, after the timestamp hook, only when asked; and the
    minimum level of the configuration, or zerolog's trace level when the
    configuration gives none. *)
Theorem logger_options reg st order c world world' ws :
  Config_MinLevel c ≠ Some Disabled →
  Writers c ≠ [] →
  compileWriters reg st (length (Writers c)) 0 c
    (replicate (length (Writers c)) nil_Writer) world
  = (c, world', inl ws) →
  ∃ log,
    Config_Compile reg st order c world = (c, world', (Some log, None))
    ∧ (timestampHook ∈ hooks log ↔ Timestamp c ≠ Some false)
    ∧ (callerHook ∈ hooks log ↔ Caller c = true)
    ∧ (Timestamp c ≠ Some false → Caller c = true →
       hooks log = [timestampHook; callerHook])
    ∧ level log = default TraceLevel (Config_MinLevel c).
Proof.
  intros Hmin Hws Hrun.
  assert (¬ inert c) as Hlive by (intros [|]; done).
  eexists. split; [by apply Config_Compile_assembled|]. simpl.
  destruct (Timestamp c) as [[]|], (Caller c); simpl;
    rewrite ?elem_of_cons, ?elem_of_nil; intuition congruence.
Qed.

(** X16: the global minimum.  A log call at a level under the minimum
    level of the configuration changes nothing, whatever the writers of
    the configuration are and wherever their own windows lie. *)
Theorem global_minimum_filters reg st order c world c' world' log (m lvl : Level)
    fields msg world0 :
  Config_Compile reg st order c world = (c', world', (Some log, None)) →
  Config_MinLevel c = Some m →
  lvl < m →
  Logger_log log lvl fields msg world0 = Some (world0, tt).
Proof.
  intros Hcompile Hm Hlvl.
  destruct (decide (inert c)) as [Hin|Hlive].
  { rewrite Config_Compile_inert in Hcompile by done.
    injection Hcompile as _ _ <-. apply Logger_log_Nop. }
  pose proof (compileWriters_config reg st (length (Writers c)) 0 c
                (replicate (length (Writers c)) nil_Writer) world) as Hc.
  destruct (compileWriters reg st (length (Writers c)) 0 c
              (replicate (length (Writers c)) nil_Writer) world)
    as [[c1 world1] [ws|e]] eqn:Hrun; simpl in Hc; subst c1.
  - rewrite (Config_Compile_assembled _ _ _ _ _ _ _ Hlive Hrun) in Hcompile.
    injection Hcompile as _ _ <-.
    unfold Logger_log, Logger_should. simpl. rewrite Hm. simpl.
    destruct (Z.ltb_spec lvl m); [|lia]. by rewrite orb_true_r.
  - unfold Config_Compile in Hcompile.
    destruct (_ || _) eqn:Htest; [by apply inert_test in Htest|].
    rewrite Hrun in Hcompile. discriminate Hcompile.
Qed.

(** X17: the window of a compiled descriptor.  When a descriptor with a
    minimum or a maximum level compiles, the writer returned passes a
    record on to the formatted writer if the record's level lies within
    the descriptor's bounds, an absent bound counting as no bound, and
    otherwise reports the record written and leaves the world alone. *)
Theorem compiled_window reg st wc world wc' world' out fout (l : Level) p world0 :
  compileMain reg st wc world = (wc', world', (out, None)) →
  applyFormat wc' out = inl fout →
  MinLevel wc' ≠ None ∨ MaxLevel wc' ≠ None →
  ∃ writer,
    WriterConfig_Compile reg st wc world = (wc', world', (writer, None))
    ∧ (((∀ m, MinLevel wc' = Some m → m = NoLevel ∨ l >= m)
        ∧ (∀ m, MaxLevel wc' = Some m → m = NoLevel ∨ l <= m)) →
       WriteLevel writer l p world0 = inner_write fout l p world0)
    ∧ (((∃ m, MinLevel wc' = Some m ∧ m ≠ NoLevel ∧ l < m)
        ∨ (∃ m, MaxLevel wc' = Some m ∧ m ≠ NoLevel ∧ l > m)) →
       WriteLevel writer l p world0 = Some (world0, (len p, None))).
Proof.
  intros Hmain Hfmt Hb.
  eexists. split; [by apply (WriterConfig_Compile_ok _ _ _ _ _ _ _ _ Hmain Hfmt)|].
  rewrite applyLevels_window by done. split.
  - intros [Hmin Hmax]. rewrite WriteLevel_inside; [done|]. unfold inside. split.
    + destruct (MinLevel wc') as [m|]; simpl; [by apply Hmin|by left].
    + destruct (MaxLevel wc') as [m|]; simpl; [by apply Hmax|by left].
  - intros Hout. rewrite WriteLevel_outside; [done|]. unfold inside.
    destruct Hout as [(m & -> & Hm & Hl)|(m & -> & Hm & Hl)]; simpl; lia.
Qed.

End Assembly.

Section UnixBuild.
Context `{UnixCollaborators}.
Implicit Types (reg : gmap string WriterCompiler) (st : Streams).
Implicit Types (wc : WriterConfig) (world : World) (c : Config).

Lemma init_unix_lookup reg (wt : string) :
  init_unix reg !! wt
  = if decide (wt = WriterTypeJournald) then Some compileJournald
    else if decide (wt = WriterTypeSyslogCEE) then Some compileSyslog
    else if decide (wt = WriterTypeSyslog) then Some compileSyslog
    else reg !! wt.
Proof.
  unfold init_unix, WriterCompiler. rewrite !lookup_insert.
  repeat case_decide; congruence.
Qed.

(** X18: when dialling the syslog daemon fails for a descriptor, and the
    writers before it compiled, Config.Compile returns no logger and the
    error of the dial behind the position of the writer. *)
Theorem syslog_Dial_error_is_reported reg st order c world i wc world1 writers1
    world2 sl e :
  Config_MinLevel c ≠ Some Disabled →
  Writers c !! i = Some wc →
  reg !! Type_ wc = Some compileSyslog →
  compileWriters reg st i 0 c (replicate (length (Writers c)) nil_Writer) world
  = (c, world1, inl writers1) →
  dial wc world1 = (world2, (sl, Some e)) →
  Config_Compile reg st order c world
  = (c, world2,
     (None,
      Some ("failed to parse config for writer #" +:+ pretty (i + 1)%nat +:+ ": " +:+ e))).
Proof.
  intros Hmin Hi Hreg Hpre Hdial.
  eapply Config_Compile_fails; [|exact Hi|exact Hpre|].
  - intros [Hnil|Hdis]; [|done]. by rewrite Hnil in Hi.
  - eapply WriterConfig_Compile_failed.
    rewrite (compileMain_known _ _ _ _ _ Hreg). unfold compileSyslog.
    unfold dial in Hdial. by rewrite Hdial.
Qed.

(** X19: in the unix build one constructor serves the types syslog and
    syslog-cee and tells them apart by the type of the descriptor: once
    the dial succeeds, a descriptor of type syslog-cee with the JSON
    format and no bounds compiles to zerolog's CEE writer on the
    connection, and one of type syslog to the plain syslog level writer. *)
Theorem syslog_writer_by_type reg st wc world world' sl :
  Format wc = "" ∨ Format wc = LogFormatJSON →
  MinLevel wc = None → MaxLevel wc = None →
  dial wc world = (world', (sl, None)) →
  (Type_ wc = WriterTypeSyslogCEE →
     WriterConfig_Compile (init_unix reg) st wc world
     = (wc, world', (zerolog_SyslogCEEWriter sl, None)))
  ∧ (Type_ wc = WriterTypeSyslog →
     WriterConfig_Compile (init_unix reg) st wc world
     = (wc, world', (zerolog_SyslogLevelWriter sl, None))).
Proof.
  intros Hfmt Hmn Hmx Hdial. unfold dial in Hdial.
  split; intros Hty.
  - assert (compileMain (init_unix reg) st wc world
            = (wc, world', (zerolog_SyslogCEEWriter sl, None))) as Hmain.
    { rewrite (compileMain_known _ _ _ _ compileSyslog)
        by (rewrite init_unix_lookup, Hty; reflexivity).
      unfold compileSyslog. rewrite Hdial, Hty. reflexivity. }
    rewrite (WriterConfig_Compile_ok _ _ _ _ _ _ _ _ Hmain (applyFormat_json _ _ Hfmt)).
    by rewrite applyLevels_none.
  - assert (compileMain (init_unix reg) st wc world
            = (wc, world', (zerolog_SyslogLevelWriter sl, None))) as Hmain.
    { rewrite (compileMain_known _ _ _ _ compileSyslog)
        by (rewrite init_unix_lookup, Hty; reflexivity).
      unfold compileSyslog. rewrite Hdial, Hty. reflexivity. }
    rewrite (WriterConfig_Compile_ok _ _ _ _ _ _ _ _ Hmain (applyFormat_json _ _ Hfmt)).
    by rewrite applyLevels_none.
Qed.

(** X20: in the unix build a journald descriptor cannot fail in its
    constructor, whatever the registry held for the type before: with a
    format the switch knows it compiles, to the journald writer behind
    the format and level steps, and neither the world nor the descriptor
    changes.  The types other than the three of the unix build resolve as
    before. *)
Theorem journald_always_compiles reg st wc world :
  (Type_ wc = WriterTypeJournald → known_format (Format wc) →
     ∃ fout,
       applyFormat wc journald_NewJournalDWriter = inl fout
       ∧ WriterConfig_Compile (init_unix reg) st wc world
         = (wc, world, (applyLevels wc fout, None)))
  ∧ (Type_ wc ≠ WriterTypeJournald → Type_ wc ≠ WriterTypeSyslog →
     Type_ wc ≠ WriterTypeSyslogCEE →
     WriterConfig_Compile (init_unix reg) st wc world
     = WriterConfig_Compile reg st wc world).
Proof.
  split.
  - intros Hty Hfmt.
    apply (applyFormat_known wc journald_NewJournalDWriter) in Hfmt as [fout Hfmt].
    exists fout. split; [done|].
    apply (WriterConfig_Compile_ok _ _ _ _ _ _ journald_NewJournalDWriter); [|done].
    by rewrite (compileMain_known _ _ _ _ compileJournald)
      by (rewrite init_unix_lookup, Hty; reflexivity).
  - intros Hj Hs Hc. unfold WriterConfig_Compile, compileMain.
    fold WriterCompiler. rewrite init_unix_lookup.
    by repeat case_decide.
Qed.

(** X21: the registry of the unix build does what the older switch on the
    writer type did: for every descriptor, dispatching through a registry
    that holds the three unix registrations only gives the result of
    compileMainForOS, the unknown-type error and its text included; and
    dispatching through an empty registry gives the result of the version
    built for the other systems. *)
Theorem registry_agrees_with_switch st wc world :
  compileMain (init_unix ∅) st wc world = compileMainForOS wc world
  ∧ compileMain ∅ st wc world = compileMainForOS_generic wc world.
Proof.
  split; [|reflexivity].
  unfold compileMain. fold WriterCompiler. rewrite init_unix_lookup.
  unfold compileMainForOS, compileSyslog, compileJournald.
  destruct (String.eqb_spec (Type_ wc) WriterTypeSyslog) as [Hs|Hs];
    destruct (String.eqb_spec (Type_ wc) WriterTypeSyslogCEE) as [Hc|Hc];
    destruct (String.eqb_spec (Type_ wc) WriterTypeJournald) as [Hj|Hj];
    repeat case_decide; try congruence; simpl; try reflexivity;
    try (rewrite Hs in *; discriminate); try (rewrite Hc in *; discriminate).
  all: destruct (syslog_Dial _ _ _ _ _) as [world0 [sl [e|]]]; [reflexivity|].
  all: destruct (String.eqb_spec (Type_ wc) WriterTypeSyslogCEE);
    first [reflexivity | congruence].
Qed.

End UnixBuild.

Section FanOut.
Context `{Collaborators}.
Implicit Types (writer : Writer) (ws : list Writer) (world : World) (p : list byte).

Lemma WriteLevel_multi ws (l : Level) p world :
  WriteLevel (multiLevelWriter ws) l p world = multi_WriteLevel l p ws (0, None) world.
Proof.
  cbn [WriteLevel]. generalize (0, @None error). revert world.
  induction ws as [|w' ws IH]; intros world acc; [reflexivity|].
  simpl. unfold bind.
  destruct (WriteLevel w' l p world) as [[world' r]|]; [apply IH|reflexivity].
Qed.

Lemma multi_world ws (l : Level) p (acc acc' : IOResult) world :
  world_after (multi_WriteLevel l p ws acc world)
  = world_after (multi_WriteLevel l p ws acc' world).
Proof.
  revert acc acc' world. induction ws as [|w' ws IH]; intros acc acc' world; simpl.
  - reflexivity.
  - unfold bind. destruct (WriteLevel w' l p world) as [[world' r]|]; [apply IH|reflexivity].
Qed.

Lemma multi_world_app ws1 ws2 (l : Level) p (acc : IOResult) world :
  world_after (multi_WriteLevel l p (ws1 ++ ws2) acc world)
  = match world_after (multi_WriteLevel l p ws1 acc world) with
    | Some world' => world_after (multi_WriteLevel l p ws2 acc world')
    | None => None
    end.
Proof.
  revert acc world. induction ws1 as [|w' ws1 IH]; intros acc world; simpl.
  - reflexivity.
  - unfold bind. destruct (WriteLevel w' l p world) as [[world' r]|]; [|reflexivity].
    rewrite IH. destruct (world_after (multi_WriteLevel l p ws1 _ world')); [|reflexivity].
    apply multi_world.
Qed.

(** X22: fan-out over windows.  In a multi-writer, a window that filters
    the level of a record leaves no trace of the record: the world after
    the write is the one the other members leave, in their order.  So of
    two windowed writers whose windows do not both hold the level, the
    record reaches only the one whose window holds it. *)
Theorem filtered_member_is_silent ws1 ws2 writer (a b l : Level) p world :
  ¬ inside a b l →
  world_after (WriteLevel (multiLevelWriter (ws1 ++ MinMaxLevelWriter writer a b :: ws2))
                 l p world)
  = world_after (WriteLevel (multiLevelWriter (ws1 ++ ws2)) l p world)
  ∧ (∀ other (c d : Level), inside c d l →
       world_after (WriteLevel (multiLevelWriter
                      [MinMaxLevelWriter other c d; MinMaxLevelWriter writer a b]) l p world)
       = world_after (inner_write other l p world)
       ∧ world_after (WriteLevel (multiLevelWriter
                        [MinMaxLevelWriter writer a b; MinMaxLevelWriter other c d]) l p world)
         = world_after (inner_write other l p world)).
Proof.
  intros Hout.
  assert (∀ ws1 ws2 world,
            world_after (WriteLevel (multiLevelWriter
                           (ws1 ++ MinMaxLevelWriter writer a b :: ws2)) l p world)
            = world_after (WriteLevel (multiLevelWriter (ws1 ++ ws2)) l p world)) as Hsilent.
  { intros xs ys world0. rewrite !WriteLevel_multi, !multi_world_app.
    destruct (world_after (multi_WriteLevel l p xs _ world0)) as [world'|]; [|reflexivity].
    cbn [multi_WriteLevel]. unfold bind.
    rewrite (WriteLevel_outside _ _ _ _ _ Hout). unfold ret.
    apply multi_world. }
  split; [apply Hsilent|].
  intros other c d Hin.
  assert (world_after (WriteLevel (multiLevelWriter [MinMaxLevelWriter other c d]) l p world)
          = world_after (inner_write other l p world)) as Hone.
  { rewrite WriteLevel_multi. cbn [multi_WriteLevel]. unfold bind.
    rewrite (WriteLevel_inside _ _ _ _ _ Hin).
    by destruct (inner_write other l p world) as [[world' r]|]. }
  split.
  - rewrite <- Hone. apply (Hsilent [MinMaxLevelWriter other c d] []).
  - rewrite <- Hone. apply (Hsilent [] [MinMaxLevelWriter other c d]).
Qed.

End FanOut.

(** * The properties at work on the fixtures *)

(** The table of the package's test of MinMaxLevelWriter. *)
Example window_no_limits :
  passed NoLevel NoLevel
  = Some (bytes_of <$> ["trace"; "debug"; "info"; "warn"; "error"; "fatal"; "panic"]).
Proof. reflexivity. Qed.

Example window_up_to_info :
  passed NoLevel InfoLevel = Some (bytes_of <$> ["trace"; "debug"; "info"]).
Proof. reflexivity. Qed.

Example window_from_error :
  passed ErrorLevel NoLevel = Some (bytes_of <$> ["error"; "fatal"; "panic"]).
Proof. reflexivity. Qed.

Example window_debug_to_warn :
  passed DebugLevel WarnLevel = Some (bytes_of <$> ["debug"; "info"; "warn"]).
Proof. reflexivity. Qed.

(** The test with two windows: each record reaches one stream only. *)
Example split_stdio_routes :
  logged split_stdio [say InfoLevel "meow"; say ErrorLevel "meow #2";
                      say TraceLevel "meow #3"]
  = Some [("stdout", bytes_of "meow"); ("stderr", bytes_of "meow #2");
          ("stdout", bytes_of "meow #3")].
Proof. reflexivity. Qed.

(** C1 as stated fails where the record is forwarded to a writer that
    fails: the window hands back the inner writer's count and error, not
    success with the length of the payload. *)
Lemma forwarded_failure_is_reported :
  inside NoLevel NoLevel InfoLevel
  ∧ @WriteLevel rec_collaborators (MinMaxLevelWriter Broken NoLevel NoLevel)
      InfoLevel meow []
    = Some ([], (0, Some "broken pipe"))
  ∧ ¬ reports_all_written
        (@WriteLevel rec_collaborators (MinMaxLevelWriter Broken NoLevel NoLevel)
           InfoLevel meow [])
        meow.
Proof.
  split; [|split].
  - unfold inside. auto.
  - reflexivity.
  - intros [world' Hres]. vm_compute in Hres. discriminate Hres.
Defined.

Lemma Compile_inert_is_Nop_witness :
  @Config_Compile rec_collaborators rec_registry rec_streams []
    (config [bogus] (Some Disabled) cats) []
  = (config [bogus] (Some Disabled) cats, [], (Some zerolog_Nop, None))
  ∧ ∀ calls world',
      @Logger_run rec_collaborators zerolog_Nop calls world' = Some (world', tt).
Proof.
  apply (@Compile_inert_is_Nop rec_collaborators rec_registry rec_streams []
           (config [bogus] (Some Disabled) cats) []).
  right. reflexivity.
Defined.

(** C3 as stated fails for a configuration whose minimum level is
    Disabled: its writers are never compiled, so a writer of unknown type
    raises no error and the no-op logger is returned. *)
Lemma Disabled_hides_unknown_type :
  Writers (config [bogus] (Some Disabled) ∅) !! 0%nat = Some bogus
  ∧ rec_registry !! Type_ bogus = None
  ∧ (@Config_Compile rec_collaborators rec_registry rec_streams []
       (config [bogus] (Some Disabled) ∅) []).2
    = (Some zerolog_Nop, None).
Proof. split; [|split]; reflexivity. Defined.

Lemma Compile_reports_bad_tag_witness :
  @Config_Compile rec_collaborators rec_registry rec_streams []
    (config [stdout_json; bogus] None ∅) []
  = (config [stdout_json; bogus] None ∅, [],
     (None,
      Some ("failed to parse config for writer #2: unknown writer type "
            +:+ quoted "bogus")))
  ∧ @Config_Compile rec_collaborators rec_registry rec_streams []
      (config [stdout_json; stdout_xml] None ∅) []
    = (config [stdout_json; stdout_xml] None ∅, [],
       (None,
        Some ("failed to parse config for writer #2: unknown format "
              +:+ quoted "xml"))).
Proof.
  split.
  - destruct (@Compile_reports_bad_tag rec_collaborators rec_registry rec_streams []
                (config [stdout_json; bogus] None ∅) [] 1%nat bogus)
      as [Htype _]; [discriminate|reflexivity|].
    destruct (Htype eq_refl) as [_ Htext].
    apply (Htext [] [Buffer "stdout"; nil_Writer]). reflexivity.
  - destruct (@Compile_reports_bad_tag rec_collaborators rec_registry rec_streams []
                (config [stdout_json; stdout_xml] None ∅) [] 1%nat stdout_xml)
      as [_ Hformat]; [discriminate|reflexivity|].
    destruct (Hformat (λ st wc world, (wc, world, (Stdout st, None))) eq_refl)
      as [_ Htext].
    apply (Htext [] [Buffer "stdout"; nil_Writer] stdout_xml [] (Buffer "stdout")).
    + reflexivity.
    + reflexivity.
    + vm_compute. intros [Hf|[Hf|[Hf|Hf]]]; discriminate Hf.
Defined.

Lemma inverted_window_filters_all_witness :
  ErrorLevel > InfoLevel
  ∧ ∀ l p world, @filters rec_collaborators ErrorLevel InfoLevel l p world.
Proof.
  split; [reflexivity|].
  apply (@inverted_window_filters_all rec_collaborators ErrorLevel InfoLevel);
    [discriminate|discriminate|reflexivity].
Defined.

Lemma Compile_wraps_levels_witness :
  @WriterConfig_Compile rec_collaborators rec_registry rec_streams stdout_from_info []
  = (stdout_from_info, [],
     (minMaxLevelWriter (levelWriterAdapter (Buffer "stdout")) InfoLevel NoLevel, None)).
Proof.
  apply (@Compile_wraps_levels rec_collaborators rec_registry rec_streams
           stdout_from_info [] stdout_from_info [] (Buffer "stdout") (Buffer "stdout")).
  - reflexivity.
  - reflexivity.
  - left. discriminate.
Defined.

Lemma metadata_sorted_by_key_witness :
  (context cats_logger).*1 = ["foo"; "meow"]
  ∧ StronglySorted String.le (context cats_logger).*1.
Proof.
  split; [reflexivity|].
  apply (@metadata_sorted_by_key rec_collaborators rec_registry rec_streams
           ["meow"; "foo"] (config [stdout_json] None cats) []
           (config [stdout_json] None cats) [] cats_logger).
  - reflexivity.
  - discriminate.
  - discriminate.
  - reflexivity.
Defined.

Lemma pretty_time_format_witness :
  ∃ noColor timeFormat,
    @WriterConfig_Compile rec_collaborators rec_registry rec_streams stdout_pretty_year []
    = (stdout_pretty_year, [],
       (applyLevels stdout_pretty_year
          (ConsoleWriter (Buffer "stdout") noColor timeFormat), None))
    ∧ (TimeFormat stdout_pretty_year ≠ "" → timeFormat = TimeFormat stdout_pretty_year)
    ∧ (TimeFormat stdout_pretty_year = ""
       → timeFormat = "2006-01-02T15:04:05.999Z07:00")
    ∧ (noColor = true ↔ Format stdout_pretty_year = LogFormatPretty).
Proof.
  apply (@pretty_time_format rec_collaborators rec_registry rec_streams
           stdout_pretty_year [] stdout_pretty_year [] (Buffer "stdout")).
  - reflexivity.
  - left. reflexivity.
Defined.

Lemma js_format_ignored_witness :
  @WriterConfig_Compile rec_collaborators js_registry rec_streams js_pretty []
  = (set_Format js_pretty LogFormatJSON, [], (JSWriter, None)).
Proof.
  apply (@js_format_ignored rec_collaborators js_registry rec_streams js_pretty []).
  - reflexivity.
  - reflexivity.
Defined.

(** The constructor of the js writer assigns the format of the descriptor
    it is handed, and the configuration still has the format it was given. *)
Example js_descriptor_is_a_copy :
  let c := config [js_pretty] None ∅ in
  (@WriterConfig_Compile rec_collaborators js_registry rec_streams js_pretty []).1.1
  = set_Format js_pretty LogFormatJSON
  ∧ Format <$> Writers
      (@Config_Compile rec_collaborators js_registry rec_streams [] c []).1.1
    = ["pretty"].
Proof. split; reflexivity. Qed.

(** ** The further properties on the fixtures *)

Lemma window_adapts_plain_writers_witness :
  @WriteLevel rec_collaborators (MinMaxLevelWriter (Buffer "buf") NoLevel NoLevel)
    InfoLevel meow []
  = @Write rec_collaborators (Buffer "buf") meow [].
Proof.
  apply (@window_adapts_plain_writers rec_collaborators (Buffer "buf")
           NoLevel NoLevel InfoLevel meow []).
  - unfold inside. auto.
  - reflexivity.
Defined.

Lemma Disabled_minimum_filters_all_witness :
  @filters rec_collaborators Disabled NoLevel PanicLevel meow [].
Proof.
  apply (@Disabled_minimum_filters_all rec_collaborators NoLevel PanicLevel meow []).
  reflexivity.
Defined.

Lemma file_Rotate_error_is_reported_witness :
  @Config_Compile rec_collaborators rec_registry rec_streams []
    (config [stdout_json; file_named "" ""] None ∅) []
  = (config [stdout_json; file_named "" ""] None ∅, [],
     (None,
      Some "failed to parse config for writer #2: open : no such file or directory")).
Proof.
  apply (@file_Rotate_error_is_reported rec_collaborators rec_registry rec_streams []
           (config [stdout_json; file_named "" ""] None ∅) [] 1%nat
           (file_named "" "") [] [Buffer "stdout"; nil_Writer] []
           "open : no such file or directory").
  - discriminate.
  - reflexivity.
  - reflexivity.
  - reflexivity.
  - reflexivity.
Defined.

Lemma file_compiles_iff_rotated_witness :
  (@WriterConfig_Compile rec_collaborators rec_registry rec_streams
     (file_named "app.log" "") []).2
  = (lumberjack_Logger (File (file_named "app.log" "")), None).
Proof.
  destruct (@file_compiles_iff_rotated rec_collaborators rec_registry rec_streams
              (file_named "app.log" "") [])
    as (_ & _ & Hjson); [reflexivity|].
  apply Hjson; [reflexivity|]. left. reflexivity.
Defined.

Lemma unsupported_types_fail_witness :
  ∃ world' e,
    @Config_Compile rec_collaborators rec_registry rec_streams []
      (config [stdout_json; syslog_to "syslog" "localhost" "app"] None ∅) []
    = (config [stdout_json; syslog_to "syslog" "localhost" "app"] None ∅, world',
       (None, Some e)).
Proof.
  apply (@unsupported_types_fail rec_collaborators rec_streams []
           (config [stdout_json; syslog_to "syslog" "localhost" "app"] None ∅) []
           1%nat (syslog_to "syslog" "localhost" "app")).
  - discriminate.
  - reflexivity.
  - left. reflexivity.
Defined.

Lemma RegisterWriter_only_for_its_type_witness :
  @Config_Compile rec_collaborators (RegisterWriter "js" compileJS rec_registry)
    rec_streams [] two_stdout []
  = @Config_Compile rec_collaborators rec_registry rec_streams [] two_stdout [].
Proof.
  apply (@RegisterWriter_only_for_its_type rec_collaborators rec_registry rec_streams
           [] two_stdout [] "js" compileJS).
  repeat constructor; discriminate.
Defined.

Lemma writers_slice_is_complete_witness :
  length two_stdout_writers = length (Writers two_stdout)
  ∧ ∀ j wc, Writers two_stdout !! j = Some wc →
      ∃ world0 wc' world1 x,
        @WriterConfig_Compile rec_collaborators rec_registry rec_streams wc world0
        = (wc', world1, (x, None))
        ∧ two_stdout_writers !! j = Some x.
Proof.
  apply (@writers_slice_is_complete rec_collaborators rec_registry rec_streams
           two_stdout [] two_stdout []).
  reflexivity.
Defined.

Lemma logger_sink_witness :
  ∃ log,
    @Config_Compile rec_collaborators rec_registry rec_streams [] two_stdout []
    = (two_stdout, [], (Some log, None))
    ∧ w log = multiLevelWriter
                [levelWriterAdapter (Buffer "stdout");
                 minMaxLevelWriter (levelWriterAdapter (Buffer "stdout"))
                   InfoLevel NoLevel].
Proof.
  destruct (@logger_sink rec_collaborators rec_registry rec_streams [] two_stdout []
              [] two_stdout_writers)
    as (log & Hlog & _ & Hmulti); [discriminate|discriminate|reflexivity|].
  exists log. split; [exact Hlog|]. apply Hmulti. simpl. lia.
Defined.

Lemma logger_options_witness :
  ∃ log,
    @Config_Compile rec_collaborators rec_registry rec_streams [] two_stdout []
    = (two_stdout, [], (Some log, None))
    ∧ level log = TraceLevel.
Proof.
  destruct (@logger_options rec_collaborators rec_registry rec_streams [] two_stdout []
              [] two_stdout_writers)
    as (log & Hlog & _ & _ & _ & Hlevel); [discriminate|discriminate|reflexivity|].
  exists log. split; [exact Hlog|exact Hlevel].
Defined.

Lemma global_minimum_filters_witness :
  @Logger_log rec_collaborators info_logger DebugLevel [] "meow" [] = Some ([], tt).
Proof.
  apply (@global_minimum_filters rec_collaborators rec_registry rec_streams []
           (config [stdout_json] (Some InfoLevel) ∅) []
           (config [stdout_json] (Some InfoLevel) ∅) [] info_logger
           InfoLevel DebugLevel [] "meow" []).
  - reflexivity.
  - reflexivity.
  - reflexivity.
Defined.

Lemma compiled_window_witness :
  ∃ writer,
    @WriterConfig_Compile rec_collaborators rec_registry rec_streams stdout_from_info []
    = (stdout_from_info, [], (writer, None))
    ∧ @WriteLevel rec_collaborators writer DebugLevel meow [] = Some ([], (4, None)).
Proof.
  destruct (@compiled_window rec_collaborators rec_registry rec_streams
              stdout_from_info [] stdout_from_info [] (Buffer "stdout") (Buffer "stdout")
              DebugLevel meow [])
    as (writer & Hw & _ & Hout); [reflexivity|reflexivity|left; discriminate|].
  exists writer. split; [exact Hw|]. apply Hout.
  left. exists InfoLevel. split; [reflexivity|]. split; [discriminate|reflexivity].
Defined.

Lemma syslog_Dial_error_is_reported_witness :
  @Config_Compile rec_collaborators unix_registry rec_streams []
    (config [syslog_to "syslog" "" "app"] None ∅) []
  = (config [syslog_to "syslog" "" "app"] None ∅, [],
     (None,
      Some "failed to parse config for writer #1: dial: connection refused")).
Proof.
  apply (@syslog_Dial_error_is_reported rec_collaborators rec_unix unix_registry
           rec_streams [] (config [syslog_to "syslog" "" "app"] None ∅) [] 0%nat
           (syslog_to "syslog" "" "app") [] [nil_Writer] [] EmptyString
           "dial: connection refused").
  - discriminate.
  - reflexivity.
  - reflexivity.
  - reflexivity.
  - reflexivity.
Defined.

Lemma syslog_writer_by_type_witness :
  @WriterConfig_Compile rec_collaborators unix_registry rec_streams
    (syslog_to "syslog-cee" "localhost" "app") []
  = (syslog_to "syslog-cee" "localhost" "app", [("dial localhost", [])],
     (rec_syslog "cee " "app", None)).
Proof.
  apply (@syslog_writer_by_type rec_collaborators rec_unix rec_registry rec_streams
           (syslog_to "syslog-cee" "localhost" "app") [] [("dial localhost", [])] "app").
  - left. reflexivity.
  - reflexivity.
  - reflexivity.
  - reflexivity.
  - reflexivity.
Defined.

Lemma filtered_member_is_silent_witness :
  world_after
    (@WriteLevel rec_collaborators
       (multiLevelWriter [MinMaxLevelWriter (Buffer "stdout") NoLevel WarnLevel;
                          MinMaxLevelWriter (Buffer "stderr") ErrorLevel NoLevel])
       InfoLevel meow [])
  = Some [("stdout", meow)].
Proof.
  destruct (@filtered_member_is_silent rec_collaborators [] [] (Buffer "stderr")
              ErrorLevel NoLevel InfoLevel meow [])
    as [_ Hroute]; [vm_compute; intros [[Hl|Hl] _]; [discriminate Hl|by apply Hl]|].
  apply (Hroute (Buffer "stdout") NoLevel WarnLevel).
  unfold inside. split; [by left|right; discriminate].
Defined.
